(** * Course scheduler: timetable and room-distribution endpoints

    A shallow embedding of [src/main.py] (the two request handlers
    [create_schedule] and [distribute_groups]) and of the request schema in
    [src/model_schema.py].  The CP-SAT solver is an external collaborator: it
    is a section variable [Solve] that maps a model to [Some] assignment
    (status OPTIMAL or FEASIBLE) or to [None] (any other status), and the only
    thing assumed about it is that a returned assignment satisfies the model
    it was given. *)

From Stdlib Require Import ZArith String List Lia DecimalString Permutation.
From stdpp Require Import gmap strings list sorting.

Local Open Scope string_scope.
Local Open Scope list_scope.
Local Open Scope Z_scope.

(** ** Request schema ([model_schema.py])

    Python [str] is [string] (a string of bytes, so that comparing strings
    compares their UTF-8 encodings, which orders them as Python does) and
    Python [int] is [Z].  A field keeps its name where no other record has it;
    the [id], [code] and [type] of a [ScheduledGroup] are [sg_id], [sg_code]
    and [sg_type], the [id] of a [Room] is [room_id], and the [Name] and [Id]
    of a day or a time interval carry the prefixes [day_] and [time_]. *)

Record Group := {
  id : string;
  instructorId : string;
  courseId : string;
  code : string;
  sessions : Z;
  instructor : string;
  course : string;
  type : Z
}.

Record SlotItem := {
  dayId : string;
  dayName : string;
  timeId : string;
  timeName : string
}.

Record AvailabilityItem := {
  teacher : string;
  teacherId : string;
  slots : list SlotItem;
  maxHours : Z
}.

Record DayItem := { day_Name : string; day_Id : string }.
Record TimeItem := { time_Name : string; time_Id : string }.

Record ScheduleRequest := {
  groups : list Group;
  availability : list AvailabilityItem;
  days : list DayItem;
  time_intervals : list TimeItem;
  max_courses_per_slot : Z
}.

Record ScheduledGroup := {
  sg_id : string;
  sg_code : string;
  slot : SlotItem;
  students_count : Z;
  sg_type : Z
}.

Record Room := {
  room_id : string;
  course_type : Z;
  capacity : Z
}.

Record DistributeGroupsRequest := {
  scheduled_groups : list ScheduledGroup;
  rooms : list Room
}.

(** ** Python values, dict literals and exceptions *)

(** The values stored in the response dictionaries. *)
Inductive value :=
  | VStr (s : string)
  | VInt (z : Z)
  | VSlot (s : SlotItem).

(** A dict literal with string keys, in insertion order. *)
Definition pydict := list (string * value).

Fixpoint dict_get (k : string) (d : pydict) : option value :=
  match d with
  | [] => None
  | (k', v) :: d' => if String.eqb k k' then Some v else dict_get k d'
  end.

Definition dict_keys (d : pydict) : list string := map fst d.

(** The violation messages appended to [errors] by the validation loop, one
    constructor per f-string of the source. *)
Inductive Violation :=
  | NoAvailabilityDefined (instructor_id : string)
  | InsufficientSlots (teacher_name instructor_id : string) (total_sessions : Z) (nslots : nat)
  | ZeroHourBudget (teacher_name instructor_id : string) (total_sessions : Z)
  | HourBudgetExceeded (teacher_name instructor_id : string) (total_sessions max_hours : Z).

(** The [detail] of the four [HTTPException(status_code=400, ...)] raised. *)
Inductive HTTPError :=
  | MissingInstructors (missing_teachers : list string)
  | ValidationErrors (errors : list Violation)
  | NoFeasibleSchedule
  | NoFeasibleRoomAssignment (day time : string).

(** What a handler does: return a value, raise [HTTPException] with status
    400, let [next] raise [StopIteration] on an exhausted generator, or let a
    comparison [sum(...) <= bound] raise inside ortools.  The last two are
    exceptions that the handlers do not catch.  The comparison raises
    [ArithmeticError] for the bound [-2**63] and [TypeError] for a bound that
    is no int64; when several comparisons of a request would raise, which one
    is reached first depends on the iteration order of a Python set, so the
    model has the one outcome [BoundError] for both. *)
Inductive result (A : Type) :=
  | Return (a : A)
  | HTTPException (e : HTTPError)
  | StopIteration
  | BoundError.
Arguments Return {A} a.
Arguments HTTPException {A} e.
Arguments StopIteration {A}.
Arguments BoundError {A}.

(** *** Rendering of the messages *)

Definition str_of_Z (z : Z) : string := NilZero.string_of_int (Z.to_int z).

Fixpoint join (sep : string) (l : list string) : string :=
  match l with
  | [] => ""
  | [s] => s
  | s :: l' => s +:+ sep +:+ join sep l'
  end.

Definition render_violation (v : Violation) : string :=
  match v with
  | NoAvailabilityDefined i =>
      "Instructor " +:+ i +:+ " has assigned groups but no availability defined."
  | InsufficientSlots t i n k =>
      "Instructor " +:+ t +:+ " (" +:+ i +:+ ") has " +:+ str_of_Z n
        +:+ " sessions but only " +:+ str_of_Z (Z.of_nat k) +:+ " slots."
  | ZeroHourBudget t i n =>
      "Instructor " +:+ t +:+ " with id : (" +:+ i +:+ ") has max Hours=0 but is assigned "
        +:+ str_of_Z n +:+ " sessions."
  | HourBudgetExceeded t i n m =>
      "Instructor " +:+ t +:+ " (" +:+ i +:+ ") is assigned " +:+ str_of_Z n
        +:+ " sessions but only allowed maxHours=" +:+ str_of_Z m +:+ "."
  end.

Inductive detail :=
  | DetailStr (s : string)
  | DetailList (l : list string).

Definition render_error (e : HTTPError) : detail :=
  match e with
  | MissingInstructors l =>
      DetailStr ("Instructors missing in availability: " +:+ join ", " l)
  | ValidationErrors errs => DetailList (map render_violation errs)
  | NoFeasibleSchedule => DetailStr "No feasible schedule found."
  | NoFeasibleRoomAssignment d t =>
      DetailStr ("No feasible room assignment for slot " +:+ d +:+ "-" +:+ t)
  end.

(** ** The CP-SAT model ([cp_model.CpModel]) *)

(** A Boolean variable is the index it was created at. *)
Definition var := nat.

(** The two comparisons the handlers pass to [model.Add]. *)
Inductive comparison := EQ | LE.

(** [sum(coef * var ...) == rhs] or [sum(coef * var ...) <= rhs].  A sum over
    an empty generator is the integer 0, so an empty [lhs] stands for it. *)
Record constraint := {
  lhs : list (Z * var);
  cmp : comparison;
  rhs : Z
}.

Record CpModel := {
  num_vars : nat;
  constraints : list constraint
}.

Definition new_model : CpModel := {| num_vars := 0; constraints := [] |}.

Definition NewBoolVar (m : CpModel) : CpModel * var :=
  ({| num_vars := S (num_vars m); constraints := constraints m |}, num_vars m).

Definition Add (c : constraint) (m : CpModel) : CpModel :=
  {| num_vars := num_vars m; constraints := constraints m ++ [c] |}.

(** What [solver.Value] reads after a successful solve. *)
Definition assignment := var -> Z.

Fixpoint eval (sol : assignment) (e : list (Z * var)) : Z :=
  match e with
  | [] => 0
  | (c, v) :: e' => c * sol v + eval sol e'
  end.

Definition holds (sol : assignment) (c : constraint) : Prop :=
  match cmp c with
  | EQ => eval sol (lhs c) = rhs c
  | LE => eval sol (lhs c) <= rhs c
  end.

Definition holdsb (sol : assignment) (c : constraint) : bool :=
  match cmp c with
  | EQ => eval sol (lhs c) =? rhs c
  | LE => eval sol (lhs c) <=? rhs c
  end.

(** An assignment satisfies a model when every Boolean variable is 0 or 1 and
    every added constraint holds. *)
Definition satisfies (sol : assignment) (m : CpModel) : Prop :=
  (forall v : var, (v < num_vars m)%nat -> sol v = 0 \/ sol v = 1) /\
  Forall (holds sol) (constraints m).

(** [sum(...) <= bound], for a Python int [bound], before the result is
    passed to [model.Add].  A sum over an empty generator is the Python int 0,
    and the comparison is one of two ints.  A sum that holds a variable is a
    linear expression of ortools, which compares it with an int64 other than
    the least one and raises for every other bound. *)
Definition int64_min : Z := - 2 ^ 63.
Definition int64_max : Z := 2 ^ 63 - 1.

Definition supported_bound (bound : Z) : bool :=
  (int64_min <? bound) && (bound <=? int64_max).

Definition le_raises (terms : list (Z * var)) (bound : Z) : bool :=
  match terms with
  | [] => false
  | _ :: _ => negb (supported_bound bound)
  end.

(** [range(n)] for a Python int [n]: empty when [n <= 0]. *)
Definition range (n : Z) : list nat := seq 0 (Z.to_nat n).

(** A dict comprehension [{k(a): v(a) for a in l}]: later items overwrite
    earlier ones with the same key. *)
Definition dict_of {A K V : Type} `{Countable K} (k : A -> K) (v : A -> V) (l : list A)
  : gmap K V :=
  fold_left (fun d a => <[k a := v a]> d) l ∅.

(** ** [create_schedule] *)

Definition slot_key : Type := (string * string)%type.
Definition session_key : Type := (string * nat * string * string)%type.

Definition day_id_to_name (request : ScheduleRequest) : gmap string string :=
  dict_of day_Id day_Name (days request).

Definition time_id_to_name (request : ScheduleRequest) : gmap string string :=
  dict_of time_Id time_Name (time_intervals request).

Definition time_slots (request : ScheduleRequest) : list slot_key :=
  flat_map (fun d => map (fun t => (day_Id d, time_Id t)) (time_intervals request))
           (days request).

Definition availability_dict (request : ScheduleRequest) : gmap string (list slot_key) :=
  dict_of teacher (fun a => map (fun s => (dayId s, timeId s)) (slots a))
          (availability request).

Definition max_hours_dict (request : ScheduleRequest) : gmap string Z :=
  dict_of teacher maxHours (availability request).

(** [{g.instructor for g in groups}] *)
Definition instructor_set (gs : list Group) : gset string :=
  list_to_set (map instructor gs).

Definition str_le (a b : string) : Prop := String.leb a b = true.

Global Instance str_le_dec a b : Decision (str_le a b).
Proof. unfold str_le. apply _. Defined.

(** [sorted({g.instructor for g in groups} - set(availability_dict.keys()))] *)
Definition missing_teachers (request : ScheduleRequest) : list string :=
  merge_sort str_le
    (elements (instructor_set (groups request) ∖ dom (availability_dict request))).

(** *** Validation checks *)

(** An insertion-ordered dict: [d.get(k)] and [d[k] = v] (an existing key
    keeps its place, a new key goes last). *)
Fixpoint assoc_get {K V : Type} `{EqDecision K} (k : K) (d : list (K * V)) : option V :=
  match d with
  | [] => None
  | (k', v) :: d' => if decide (k = k') then Some v else assoc_get k d'
  end.

Fixpoint assoc_set {K V : Type} `{EqDecision K} (k : K) (v : V) (d : list (K * V))
  : list (K * V) :=
  match d with
  | [] => [(k, v)]
  | (k', v') :: d' =>
      if decide (k = k') then (k', v) :: d' else (k', v') :: assoc_set k v d'
  end.

(** [sessions_per_instructor[g.instructorId] =
      sessions_per_instructor.get(g.instructorId, 0) + g.sessions] *)
Definition count_sessions (d : list (string * Z)) (g : Group) : list (string * Z) :=
  assoc_set (instructorId g)
            (default 0 (assoc_get (instructorId g) d) + sessions g) d.

Definition sessions_per_instructor (request : ScheduleRequest) : list (string * Z) :=
  fold_left count_sessions (groups request) [].

Definition availability_map (request : ScheduleRequest) : gmap string AvailabilityItem :=
  dict_of teacherId (fun a => a) (availability request).

(** Rule 1: available slots < assigned sessions *)
Definition rule1 (a : AvailabilityItem) (total_sessions : Z) : bool :=
  Z.of_nat (length (slots a)) <? total_sessions.

(** Rule 2: maxHours == 0 but sessions assigned *)
Definition rule2 (a : AvailabilityItem) (total_sessions : Z) : bool :=
  (maxHours a =? 0) && (total_sessions >? 0).

(** Rule 3: sessions > maxHours *)
Definition rule3 (a : AvailabilityItem) (total_sessions : Z) : bool :=
  (maxHours a >? 0) && (total_sessions >? maxHours a).

(** One iteration of the loop over [sessions_per_instructor.items()]; [errors]
    is the list the loop appends to. *)
Definition check_instructor (amap : gmap string AvailabilityItem)
    (errors : list Violation) (item : string * Z) : list Violation :=
  let '(instructor_id, total_sessions) := item in
  match amap !! instructor_id with
  | None => errors ++ [NoAvailabilityDefined instructor_id]
  | Some a =>
      let errors :=
        if rule1 a total_sessions
        then errors ++ [InsufficientSlots (teacher a) instructor_id total_sessions
                                          (length (slots a))]
        else errors in
      let errors :=
        if rule2 a total_sessions
        then errors ++ [ZeroHourBudget (teacher a) instructor_id total_sessions]
        else errors in
      let errors :=
        if rule3 a total_sessions
        then errors ++ [HourBudgetExceeded (teacher a) instructor_id total_sessions
                                           (maxHours a)]
        else errors in
      errors
  end.

Definition validation_errors (request : ScheduleRequest) : list Violation :=
  fold_left (check_instructor (availability_map request))
            (sessions_per_instructor request) [].

(** *** Decision variables and constraints *)

Abbreviation xdict := (gmap session_key var).

(** [d[k] = model.NewBoolVar(...)], on the pair of the model and the dict
    of its variables. *)
Definition declare_var {K : Type} `{Countable K} (k : K) (st : CpModel * gmap K var)
  : CpModel * gmap K var :=
  let '(model, v) := NewBoolVar (fst st) in (model, <[k := v]> (snd st)).

Definition declare_vars (gs : list Group) (ts : list slot_key)
    (st : CpModel * xdict) : CpModel * xdict :=
  fold_left (fun st g =>
    fold_left (fun st s_idx =>
      fold_left (fun st '(day_id, time_id) =>
                   declare_var (id g, s_idx, day_id, time_id) st)
                ts st)
      (range (sessions g)) st)
    gs st.

Section Constraints.
Variable gs : list Group.
Variable ts : list slot_key.
Variable x : xdict.

(** [x[(g.id, s_idx, d, t)]].  The handler reads only keys it has declared
    (lemma [xvar_declared]), so the lookup never falls back on a default. *)
Definition xvar (g : Group) (s_idx : nat) (d t : string) : var :=
  x !!! (id g, s_idx, d, t).

(** [x[(g.id, s_idx, d, t)] for g in l for s_idx in range(g.sessions)] *)
Definition at_slot (l : list Group) (d t : string) : list (Z * var) :=
  flat_map (fun g => map (fun s_idx => (1, xvar g s_idx d t)) (range (sessions g))) l.

(** 1) Each session must be scheduled exactly once *)
Definition exactly_once_ct (g : Group) (s_idx : nat) : constraint :=
  {| lhs := map (fun slot => (1, xvar g s_idx slot.1 slot.2)) ts; cmp := EQ; rhs := 1 |}.

Definition add_exactly_once (model : CpModel) : CpModel :=
  fold_left (fun model g =>
    fold_left (fun model s_idx => Add (exactly_once_ct g s_idx) model)
              (range (sessions g)) model)
    gs model.

(** 2) Instructor cannot teach two courses at the same time *)
Definition instructor_overlap_ct (inst : string) (d t : string) : constraint :=
  {| lhs := at_slot (filter (fun g => instructor g = inst) gs) d t;
     cmp := LE; rhs := 1 |}.

Definition add_instructor_overlap (model : CpModel) : CpModel :=
  fold_left (fun model inst =>
    fold_left (fun model '(d, t) => Add (instructor_overlap_ct inst d t) model)
              ts model)
    (elements (instructor_set gs)) model.

(** 3) Instructor availability constraint *)
Definition unavailable_ct (g : Group) (s_idx : nat) (d t : string) : constraint :=
  {| lhs := [(1, xvar g s_idx d t)]; cmp := EQ; rhs := 0 |}.

Definition add_availability (adict : gmap string (list slot_key))
    (model : CpModel) : CpModel :=
  fold_left (fun model g =>
    let allowed_slots : gset slot_key :=
      list_to_set (default [] (adict !! instructor g)) in
    fold_left (fun model s_idx =>
      fold_left (fun model '(d, t) =>
                   if decide ((d, t) ∈ allowed_slots) then model
                   else Add (unavailable_ct g s_idx d t) model)
                ts model)
      (range (sessions g)) model)
    gs model.

(** 4) No two groups for the same course can overlap *)
Definition course_overlap_ct (cid : string) (d t : string) : constraint :=
  {| lhs := at_slot (filter (fun g => courseId g = cid) gs) d t;
     cmp := LE; rhs := 1 |}.

Definition add_course_overlap (model : CpModel) : CpModel :=
  fold_left (fun model cid =>
    fold_left (fun model '(d, t) => Add (course_overlap_ct cid d t) model)
              ts model)
    (elements (list_to_set (map courseId gs) : gset string)) model.

(** 5) Maximum number of simultaneous courses per slot *)
Definition slot_capacity_ct (max_courses : Z) (d t : string) : constraint :=
  {| lhs := at_slot gs d t; cmp := LE; rhs := max_courses |}.

Definition add_slot_capacity (max_courses : Z) (model : CpModel) : CpModel :=
  fold_left (fun model '(d, t) => Add (slot_capacity_ct max_courses d t) model)
            ts model.

(** Whether some comparison [sum(...) <= MAX_COURSES_PER_SLOT] of that loop
    raises; [add_slot_capacity] is what the loop does when none raises. *)
Definition slot_capacity_raises (max_courses : Z) : bool :=
  existsb (fun '(d, t) => le_raises (lhs (slot_capacity_ct max_courses d t)) max_courses)
          ts.

(** 6) Maximum hours per teacher: 2 per session of a THEORY group
    ([type == 0]), 1 otherwise. *)
Definition hour_cost (g : Group) : Z := if type g =? 0 then 2 else 1.

Definition hours_of (inst : string) : list (Z * var) :=
  flat_map (fun g =>
    flat_map (fun s_idx =>
      map (fun slot => (hour_cost g, xvar g s_idx slot.1 slot.2)) ts)
      (range (sessions g)))
    (filter (fun g => instructor g = inst) gs).

Definition max_hours_ct (inst : string) (max_hours : Z) : constraint :=
  {| lhs := hours_of inst; cmp := LE; rhs := max_hours |}.

Definition add_max_hours (mdict : gmap string Z) (model : CpModel) : CpModel :=
  fold_left (fun model inst =>
    match mdict !! inst with
    | Some max_hours => Add (max_hours_ct inst max_hours) model
    | None => model
    end)
    (elements (instructor_set gs)) model.

(** Whether some comparison [sum(...) <= max_hours] of that loop raises;
    [add_max_hours] is what the loop does when none raises. *)
Definition max_hours_raises (mdict : gmap string Z) : bool :=
  existsb (fun inst =>
    match mdict !! inst with
    | Some max_hours => le_raises (lhs (max_hours_ct inst max_hours)) max_hours
    | None => false
    end)
    (elements (instructor_set gs)).
End Constraints.

(** Building the model raises when a comparison of constraint 5 or of
    constraint 6 does; the comparisons of the other constraints are with 0 and
    1.  Nothing of a request that raises here is observed but the
    exception. *)
Definition build_raises (request : ScheduleRequest) : bool :=
  let gs := groups request in
  let ts := time_slots request in
  let '(model, x) := declare_vars gs ts (new_model, ∅) in
  slot_capacity_raises gs ts x (max_courses_per_slot request)
  || max_hours_raises gs ts x (max_hours_dict request).

(** The model handed to the solver when building it does not raise, with the
    dict [x] of its variables. *)
Definition build_model (request : ScheduleRequest) : CpModel * xdict :=
  let gs := groups request in
  let ts := time_slots request in
  let '(model, x) := declare_vars gs ts (new_model, ∅) in
  let model := add_exactly_once gs ts x model in
  let model := add_instructor_overlap gs ts x model in
  let model := add_availability gs ts x (availability_dict request) model in
  let model := add_course_overlap gs ts x model in
  let model := add_slot_capacity gs ts x (max_courses_per_slot request) model in
  let model := add_max_hours gs ts x (max_hours_dict request) model in
  (model, x).

(** *** Collecting the solution *)

Definition schedule_entry (request : ScheduleRequest) (g : Group) (s_idx : nat)
    (d t : string) : pydict :=
  [ ("GroupId", VStr (id g));
    ("CourseCode", VStr (code g));
    ("CourseId", VStr (courseId g));
    ("CourseFamily", VStr (course g));
    ("Session", VInt (Z.of_nat s_idx + 1));
    ("Instructor", VStr (instructor g));
    ("InstructorId", VStr (instructorId g));
    ("DayId", VStr d);
    ("Day", VStr (default d (day_id_to_name request !! d)));
    ("TimeId", VStr t);
    ("Time", VStr (default t (time_id_to_name request !! t)));
    ("Type", VInt (type g)) ].

(** The entries appended for one session: one per slot whose variable has
    value 1. *)
Definition session_entries (request : ScheduleRequest) (x : xdict) (sol : assignment)
    (g : Group) (s_idx : nat) : list pydict :=
  flat_map (fun slot =>
              if sol (xvar x g s_idx slot.1 slot.2) =? 1
              then [schedule_entry request g s_idx slot.1 slot.2] else [])
           (time_slots request).

Definition collect_schedule (request : ScheduleRequest) (x : xdict) (sol : assignment)
  : list pydict :=
  flat_map (fun g => flat_map (session_entries request x sol g) (range (sessions g)))
           (groups request).

(** ** [distribute_groups] *)

Abbreviation ydict := (gmap (string * string) var).

(** [slot_to_groups[(g.slot.dayId, g.slot.timeId)].append(g)] on a
    [defaultdict(list)] *)
Definition slot_of (g : ScheduledGroup) : slot_key := (dayId (slot g), timeId (slot g)).

Definition add_to_slot (d : list (slot_key * list ScheduledGroup)) (g : ScheduledGroup)
  : list (slot_key * list ScheduledGroup) :=
  assoc_set (slot_of g) (default [] (assoc_get (slot_of g) d) ++ [g]) d.

Definition slot_to_groups (request : DistributeGroupsRequest)
  : list (slot_key * list ScheduledGroup) :=
  fold_left add_to_slot (scheduled_groups request) [].

(** [r.capacity >= g.students_count and r.course_type == g.type] *)
Definition compatible (g : ScheduledGroup) (r : Room) : bool :=
  (capacity r >=? students_count g) && (course_type r =? sg_type g).

Definition declare_rooms (groups_in_slot : list ScheduledGroup) (rs : list Room)
    (st : CpModel * ydict) : CpModel * ydict :=
  fold_left (fun st g =>
    fold_left (fun st r =>
      if compatible g r then declare_var (sg_id g, room_id r) st else st)
      rs st)
    groups_in_slot st.

Section RoomConstraints.
Variable groups_in_slot : list ScheduledGroup.
Variable rs : list Room.
Variable y : ydict.

(** [y[(g.id, r.id)]] guarded by [(g.id, r.id) in y] *)
Definition yterm (g : ScheduledGroup) (r : Room) : list (Z * var) :=
  match y !! (sg_id g, room_id r) with
  | Some v => [(1, v)]
  | None => []
  end.

(** Constraint 1: each group assigned to exactly one room *)
Definition one_room_ct (g : ScheduledGroup) : constraint :=
  {| lhs := flat_map (yterm g) rs; cmp := EQ; rhs := 1 |}.

(** Constraint 2: each room holds at most one group at a time *)
Definition one_group_ct (r : Room) : constraint :=
  {| lhs := flat_map (fun g => yterm g r) groups_in_slot; cmp := LE; rhs := 1 |}.

Definition add_room_constraints (model : CpModel) : CpModel :=
  let model := fold_left (fun model g => Add (one_room_ct g) model)
                         groups_in_slot model in
  fold_left (fun model r => Add (one_group_ct r) model) rs model.
End RoomConstraints.

Definition room_model (groups_in_slot : list ScheduledGroup) (rs : list Room)
  : CpModel * ydict :=
  let '(model, y) := declare_rooms groups_in_slot rs (new_model, ∅) in
  (add_room_constraints groups_in_slot rs y model, y).

(** [next(r.id for r in rooms if (g.id, r.id) in y and
    solver.Value(y[(g.id, r.id)]) == 1)]; [None] is the exhausted generator. *)
Fixpoint next_room (y : ydict) (sol : assignment) (g : ScheduledGroup) (rs : list Room)
  : option string :=
  match rs with
  | [] => None
  | r :: rs' =>
      match y !! (sg_id g, room_id r) with
      | Some v => if sol v =? 1 then Some (room_id r) else next_room y sol g rs'
      | None => next_room y sol g rs'
      end
  end.

Definition distributed_entry (g : ScheduledGroup) (assigned_room : string) : pydict :=
  [ ("id", VStr (sg_id g));
    ("slot", VSlot (slot g));
    ("number_size", VInt (students_count g));
    ("type", VInt (sg_type g));
    ("roomId", VStr assigned_room) ].

(** Sequencing of two steps that may raise. *)
Global Instance result_bind : MBind result := fun _ _ f m =>
  match m with
  | Return a => f a
  | HTTPException e => HTTPException e
  | StopIteration => StopIteration
  | BoundError => BoundError
  end.

(** The loop over [groups_in_slot] that appends to [final_distribution]. *)
Fixpoint collect_rooms (y : ydict) (sol : assignment) (rs : list Room)
    (groups_in_slot : list ScheduledGroup) (final_distribution : list pydict)
  : result (list pydict) :=
  match groups_in_slot with
  | [] => Return final_distribution
  | g :: rest =>
      match next_room y sol g rs with
      | None => StopIteration
      | Some assigned_room =>
          collect_rooms y sol rs rest
                        (final_distribution ++ [distributed_entry g assigned_room])
      end
  end.

(** ** The handlers *)

Section Handlers.
(** [solver.Solve(model)]: [Some sol] for status OPTIMAL or FEASIBLE, with
    [sol] what [solver.Value] then reads; [None] for every other status. *)
Variable Solve : CpModel -> option assignment.

(** The handler returns [{"schedule": schedule}]; the model returns
    [schedule].  The model is built after both validation steps and before
    the solver runs, so an exception raised while building it comes after the
    two validation errors and before the no-feasible-schedule error. *)
Definition create_schedule (request : ScheduleRequest) : result (list pydict) :=
  match missing_teachers request with
  | (_ :: _) as missing => HTTPException (MissingInstructors missing)
  | [] =>
      match validation_errors request with
      | (_ :: _) as errors => HTTPException (ValidationErrors errors)
      | [] =>
          if build_raises request then BoundError
          else
            let '(model, x) := build_model request in
            match Solve model with
            | None => HTTPException NoFeasibleSchedule
            | Some sol => Return (collect_schedule request x sol)
            end
      end
  end.

(** The loop over [slot_to_groups.items()]. *)
Fixpoint distribute_slots (rs : list Room)
    (items : list (slot_key * list ScheduledGroup))
    (final_distribution : list pydict) : result (list pydict) :=
  match items with
  | [] => Return final_distribution
  | ((day, time), groups_in_slot) :: rest =>
      let '(model, y) := room_model groups_in_slot rs in
      match Solve model with
      | None => HTTPException (NoFeasibleRoomAssignment day time)
      | Some sol =>
          final_distribution ← collect_rooms y sol rs groups_in_slot final_distribution;
          distribute_slots rs rest final_distribution
      end
  end.

(** The handler returns [{"scheduled_groups": final_distribution}]; the
    model returns [final_distribution]. *)
Definition distribute_groups (request : DistributeGroupsRequest)
  : result (list pydict) :=
  distribute_slots (rooms request) (slot_to_groups request) [].
End Handlers.

(** ** A reference solver

    Exhaustive search over the 0/1 assignments of a model's variables.  It is
    one function that meets the solver's contract, and is what the concrete
    examples below run the handlers with. *)

Fixpoint all_bits (n : nat) : list (list bool) :=
  match n with
  | O => [[]]
  | S n' => flat_map (fun bits => [false :: bits; true :: bits]) (all_bits n')
  end.

Definition assignment_of (bits : list bool) : assignment :=
  fun v => if nth v bits false then 1 else 0.

Definition brute_force (m : CpModel) : option assignment :=
  assignment_of <$>
    List.find (fun bits => forallb (holdsb (assignment_of bits)) (constraints m))
              (all_bits (num_vars m)).

(** ** Vocabulary of the statements *)

(** The raw number of sessions assigned to an instructor id: the sum of
    [g.sessions] over the groups whose [instructorId] is [i]. *)
Fixpoint total_sessions (i : string) (gs : list Group) : Z :=
  match gs with
  | [] => 0
  | g :: gs' =>
      (if decide (instructorId g = i) then sessions g else 0) + total_sessions i gs'
  end.

(** Membership in a list, as the standard library's [In], is decidable. *)
Global Instance In_Decision {A : Type} `{EqDecision A} (x : A) (l : list A)
  : Decision (In x l) :=
  match decide (x ∈ l) with
  | left Hin => left (proj1 (list_elem_of_In l x) Hin)
  | right Hnin => right (fun Hin => Hnin (proj2 (list_elem_of_In l x) Hin))
  end.

(** ** Concrete requests *)

Module Examples.

Definition slot_at (d t : string) : SlotItem :=
  {| dayId := d; dayName := d; timeId := t; timeName := t |}.

Definition two_days : list DayItem :=
  [ {| day_Name := "Monday"; day_Id := "d1" |};
    {| day_Name := "Tuesday"; day_Id := "d2" |} ].

Definition two_times : list TimeItem :=
  [ {| time_Name := "08:00"; time_Id := "t1" |};
    {| time_Name := "10:00"; time_Id := "t2" |} ].

Definition all_four_slots : list SlotItem :=
  [ slot_at "d1" "t1"; slot_at "d1" "t2"; slot_at "d2" "t1"; slot_at "d2" "t2" ].

Definition algebra (sessions : Z) : Group :=
  {| id := "G1"; instructorId := "i1"; courseId := "c1"; code := "MATH101";
     sessions := sessions; instructor := "Bob"; course := "Algebra"; type := 0 |}.

(** One instructor, one THEORY group with two sessions, two days by two
    time intervals all available, max-hours 4, two courses per slot. *)
Definition req_two_sessions : ScheduleRequest :=
  {| groups := [algebra 2];
     availability := [ {| teacher := "Bob"; teacherId := "i1";
                          slots := all_four_slots; maxHours := 4 |} ];
     days := two_days;
     time_intervals := two_times;
     max_courses_per_slot := 2 |}.

Definition schedule_two_sessions : list pydict :=
  Eval vm_compute in
    match create_schedule brute_force req_two_sessions with
    | Return schedule => schedule
    | _ => []
    end.

(** The group names its instructor "Bob", who has an availability record
    under that name, but the record's [teacherId] is not the group's
    [instructorId]. *)
Definition req_id_mismatch : ScheduleRequest :=
  {| groups := [algebra 1];
     availability := [ {| teacher := "Bob"; teacherId := "i2";
                          slots := all_four_slots; maxHours := 4 |} ];
     days := two_days;
     time_intervals := two_times;
     max_courses_per_slot := 2 |}.

(** The group's instructor "Bob" has no availability record at all. *)
Definition req_missing_teacher : ScheduleRequest :=
  {| groups := [algebra 1];
     availability := [ {| teacher := "Ann"; teacherId := "i1";
                          slots := []; maxHours := 0 |} ];
     days := two_days;
     time_intervals := two_times;
     max_courses_per_slot := 2 |}.

(** Two groups of different courses and instructors that share the id
    "G1". *)
Definition req_shared_id : ScheduleRequest :=
  {| groups := [ algebra 1;
                 {| id := "G1"; instructorId := "i2"; courseId := "c2";
                    code := "PHYS150"; sessions := 1; instructor := "Ann";
                    course := "Physics"; type := 1 |} ];
     availability := [ {| teacher := "Bob"; teacherId := "i1";
                          slots := all_four_slots; maxHours := 4 |};
                       {| teacher := "Ann"; teacherId := "i2";
                          slots := all_four_slots; maxHours := 4 |} ];
     days := two_days;
     time_intervals := two_times;
     max_courses_per_slot := 2 |}.

Definition physics_lab : Group :=
  {| id := "G2"; instructorId := "i2"; courseId := "c2"; code := "PHYS150";
     sessions := 1; instructor := "Ann"; course := "Physics"; type := 1 |}.

(** Bob has five sessions, one declared slot and max-hours 2; Ann has one
    session and max-hours 0. *)
Definition req_overbooked : ScheduleRequest :=
  {| groups := [algebra 3; physics_lab; algebra 2];
     availability := [ {| teacher := "Bob"; teacherId := "i1";
                          slots := [slot_at "d1" "t1"]; maxHours := 2 |};
                       {| teacher := "Ann"; teacherId := "i2";
                          slots := all_four_slots; maxHours := 0 |} ];
     days := two_days;
     time_intervals := two_times;
     max_courses_per_slot := 2 |}.

Definition lecture_hall : Room := {| room_id := "R1"; course_type := 0; capacity := 50 |}.
Definition seminar_room : Room := {| room_id := "R2"; course_type := 0; capacity := 30 |}.

Definition algebra_monday : ScheduledGroup :=
  {| sg_id := "G1"; sg_code := "MATH101"; slot := slot_at "d1" "t1";
     students_count := 40; sg_type := 0 |}.

Definition logic_monday : ScheduledGroup :=
  {| sg_id := "G3"; sg_code := "PHIL120"; slot := slot_at "d1" "t1";
     students_count := 20; sg_type := 0 |}.

Definition analysis_monday_late : ScheduledGroup :=
  {| sg_id := "G4"; sg_code := "MATH201"; slot := slot_at "d1" "t2";
     students_count := 60; sg_type := 0 |}.

(** Two groups in the same slot, and a room for each. *)
Definition req_two_groups : DistributeGroupsRequest :=
  {| scheduled_groups := [algebra_monday; logic_monday];
     rooms := [lecture_hall; seminar_room] |}.

Definition distribution_two_groups : list pydict :=
  Eval vm_compute in
    match distribute_groups brute_force req_two_groups with
    | Return final_distribution => final_distribution
    | _ => []
    end.

(** The first slot can be solved; the group of the second slot has 60
    students and no room holds that many. *)
Definition req_no_room : DistributeGroupsRequest :=
  {| scheduled_groups := [algebra_monday; analysis_monday_late];
     rooms := [lecture_hall; seminar_room] |}.

Definition storage_room : Room := {| room_id := "R1"; course_type := 0; capacity := 10 |}.
Definition auditorium : Room := {| room_id := "R3"; course_type := 0; capacity := 80 |}.

(** One group of 40 students; the lecture hall and the storage room share
    the id "R1". *)
Definition req_shared_room_id : DistributeGroupsRequest :=
  {| scheduled_groups := [algebra_monday];
     rooms := [lecture_hall; storage_room; auditorium] |}.

(** A group with a session to schedule, and no day in the calendar. *)
Definition req_empty_calendar : ScheduleRequest :=
  {| groups := [algebra 1];
     availability := [ {| teacher := "Bob"; teacherId := "i1";
                          slots := all_four_slots; maxHours := 4 |} ];
     days := [];
     time_intervals := two_times;
     max_courses_per_slot := 2 |}.

(** A calendar and an availability record, and no group. *)
Definition req_no_groups : ScheduleRequest :=
  {| groups := [];
     availability := [ {| teacher := "Bob"; teacherId := "i1";
                          slots := all_four_slots; maxHours := 4 |} ];
     days := two_days;
     time_intervals := two_times;
     max_courses_per_slot := 2 |}.

(** Two sessions of a THEORY group for an instructor with max-hours 3: the
    two sessions pass the validation loop, the four hours they cost do
    not fit. *)
Definition req_three_hours : ScheduleRequest :=
  {| groups := [algebra 2];
     availability := [ {| teacher := "Bob"; teacherId := "i1";
                          slots := all_four_slots; maxHours := 3 |} ];
     days := two_days;
     time_intervals := two_times;
     max_courses_per_slot := 2 |}.

(** Two availability records with the teacher name "Bob": the record of
    the group's [instructorId] "i1" declares max-hours 2, the later record,
    of "i2", declares 4. *)
Definition req_same_name : ScheduleRequest :=
  {| groups := [algebra 2];
     availability := [ {| teacher := "Bob"; teacherId := "i1";
                          slots := all_four_slots; maxHours := 2 |};
                       {| teacher := "Bob"; teacherId := "i2";
                          slots := all_four_slots; maxHours := 4 |} ];
     days := two_days;
     time_intervals := two_times;
     max_courses_per_slot := 2 |}.

(** One session for an instructor whose max-hours is the least int64. *)
Definition req_least_int64 : ScheduleRequest :=
  {| groups := [algebra 1];
     availability := [ {| teacher := "Bob"; teacherId := "i1";
                          slots := all_four_slots; maxHours := - 2 ^ 63 |} ];
     days := two_days;
     time_intervals := two_times;
     max_courses_per_slot := 2 |}.

End Examples.

Global Instance SlotItem_eq_dec : EqDecision SlotItem.
Proof. solve_decision. Defined.

Global Instance value_eq_dec : EqDecision value.
Proof. solve_decision. Defined.

(** Which session an entry of the schedule is for: its [GroupId] and
    [Session] fields. *)
Definition session_of (e : pydict) : option value * option value :=
  (dict_get "GroupId" e, dict_get "Session" e).

(** The hours a schedule entry costs instructor [inst]: 2 for a THEORY
    session ([Type] 0) of that instructor, 1 for any other session of that
    instructor, nothing for an entry of somebody else. *)
Definition entry_hours (inst : string) (e : pydict) : Z :=
  if decide (dict_get "Instructor" e = Some (VStr inst))
  then (if decide (dict_get "Type" e = Some (VInt 0)) then 2 else 1)
  else 0.

Fixpoint instructor_hours (inst : string) (schedule : list pydict) : Z :=
  match schedule with
  | [] => 0
  | e :: rest => entry_hours inst e + instructor_hours inst rest
  end.

(** [m'] is [m] with more constraints added and the same variables. *)
Definition extends (m m' : CpModel) : Prop :=
  num_vars m' = num_vars m /\
  exists cs, constraints m' = constraints m ++ cs.

(** Every variable stored in the dict was created in the model. *)
Definition bounded {K : Type} `{Countable K} (st : CpModel * gmap K var) : Prop :=
  forall k v, snd st !! k = Some v -> (v < num_vars (fst st))%nat.

(** The keys of [x], in the order [create_schedule] declares them. *)
Definition session_keys (gs : list Group) (ts : list slot_key) : list session_key :=
  flat_map (fun g =>
    flat_map (fun s_idx => map (fun slot => (id g, s_idx, slot.1, slot.2)) ts)
             (range (sessions g)))
    gs.

(** The keys of [y], in the order [distribute_groups] declares them. *)
Definition room_keys (groups_in_slot : list ScheduledGroup) (rs : list Room)
  : list (string * string) :=
  flat_map (fun g =>
    flat_map (fun r => if compatible g r then [(sg_id g, room_id r)] else []) rs)
    groups_in_slot.

(** Declaring the variables of a list of keys, one after the other. *)
Definition declare_all {K : Type} `{Countable K} (keys : list K)
    (st : CpModel * gmap K var) : CpModel * gmap K var :=
  fold_left (fun st k => declare_var k st) keys st.

(** The solver's contract: an assignment it returns satisfies the model. *)
Definition sound (Solve : CpModel -> option assignment) : Prop :=
  forall m sol, Solve m = Some sol -> satisfies sol m.

(** The [(GroupId, Session)] fields the schedule must hold: one pair per
    group and session index, in the order of the groups. *)
Definition expected_sessions (gs : list Group) : list (option value * option value) :=
  flat_map (fun g =>
    map (fun s_idx => (Some (VStr (id g)), Some (VInt (Z.of_nat s_idx + 1))))
        (range (sessions g)))
    gs.

(** How many entries of a schedule are for session [s_idx] of the group with
    id [gid]. *)
Definition occurrences (gid : string) (s_idx : nat) (schedule : list pydict) : nat :=
  count_occ (decide_rel eq) (map session_of schedule)
            (Some (VStr gid), Some (VInt (Z.of_nat s_idx + 1))).

Global Instance ScheduledGroup_eq_dec : EqDecision ScheduledGroup.
Proof. solve_decision. Defined.

Global Instance Room_eq_dec : EqDecision Room.
Proof. solve_decision. Defined.

(** The fields of a [ScheduledGroup] under the names the schema gives
    them. *)
Definition scheduled_group_fields (g : ScheduledGroup) : pydict :=
  [ ("id", VStr (sg_id g));
    ("code", VStr (sg_code g));
    ("slot", VSlot (slot g));
    ("students_count", VInt (students_count g));
    ("type", VInt (sg_type g)) ].

(** What an entry of the distribution books: the [(dayId, timeId)] of its
    [slot] field and its [roomId] field. *)
Definition booking (e : pydict) : option slot_key * option value :=
  (match dict_get "slot" e with
   | Some (VSlot s) => Some (dayId s, timeId s)
   | _ => None
   end,
   dict_get "roomId" e).

(** [e] is the entry of group [g] with the room the solved slot gives it. *)
Definition assigned (y : ydict) (sol : assignment) (rs : list Room)
    (g : ScheduledGroup) (e : pydict) : Prop :=
  exists assigned_room,
    next_room y sol g rs = Some assigned_room /\
    e = distributed_entry g assigned_room.

(** [block] is what one iteration of the loop over the slots appends: the
    solver answered for the slot's model and every group got its entry. *)
Definition slot_block (Solve : CpModel -> option assignment) (rs : list Room)
    (item : slot_key * list ScheduledGroup) (block : list pydict) : Prop :=
  exists sol,
    Solve (fst (room_model (snd item) rs)) = Some sol /\
    Forall2 (assigned (snd (room_model (snd item) rs)) sol rs) (snd item) block.

(** The instructor id a violation message is about. *)
Definition violation_instructor (v : Violation) : string :=
  match v with
  | NoAvailabilityDefined i => i
  | InsufficientSlots _ i _ _ => i
  | ZeroHourBudget _ i _ => i
  | HourBudgetExceeded _ i _ _ => i
  end.

(** The entry is for day [d] at time [t]. *)
Definition entry_at (d t : string) (e : pydict) : Prop :=
  dict_get "DayId" e = Some (VStr d) /\ dict_get "TimeId" e = Some (VStr t).

Global Instance entry_at_dec d t e : Decision (entry_at d t e).
Proof. unfold entry_at. apply _. Defined.

(** How many entries of a list satisfy [R]. *)
Definition matching (R : pydict -> Prop) `{forall e, Decision (R e)}
    (es : list pydict) : Z :=
  Z.of_nat (length (filter R es)).

(** The hours the groups of instructor [inst] ask for: for each of them its
    number of sessions ([range] is empty for a negative [sessions]) times 2
    for a THEORY group and 1 otherwise. *)
Fixpoint weighted_demand (inst : string) (gs : list Group) : Z :=
  match gs with
  | [] => 0
  | g :: gs' =>
      (if decide (instructor g = inst) then hour_cost g * Z.max 0 (sessions g) else 0)
      + weighted_demand inst gs'
  end.

(** Where an entry of the schedule puts which session: its [GroupId],
    [Session], [DayId] and [TimeId] fields. *)
Definition placement (e : pydict)
  : option value * option value * option value * option value :=
  (dict_get "GroupId" e, dict_get "Session" e, dict_get "DayId" e, dict_get "TimeId" e).


(** [a] is the item that a dict comprehension over [l] keeps under [key]:
    the last item of [l] whose key is [key]. *)
Definition last_with {A K : Type} (k : A -> K) (key : K) (l : list A) (a : A) : Prop :=
  exists before after,
    l = before ++ a :: after /\ k a = key /\ forall b, In b after -> k b <> key.

(** * Properties *)

(** ** Dictionaries *)

Section DictOf.
Context {A K V : Type} `{Countable K}.
Variable k : A -> K.
Variable v : A -> V.

Lemma dict_fold_lookup_Some (l : list A) (d0 : gmap K V) key w :
  fold_left (fun d a => <[k a := v a]> d) l d0 !! key = Some w ->
  (exists a, In a l /\ k a = key /\ v a = w) \/ d0 !! key = Some w.
Proof.
  revert d0. induction l as [|a l IH]; intros d0 Hl; simpl in *.
  - by right.
  - destruct (IH _ Hl) as [(b & Hb & Hk & Hv) | Hd].
    + left. exists b. auto.
    + destruct (decide (k a = key)) as [Heq | Hne].
      * rewrite <- Heq, lookup_insert_eq in Hd. left. exists a.
        split; [by left | split; congruence].
      * rewrite lookup_insert_ne in Hd by done. by right.
Qed.

Lemma dict_fold_is_Some (l : list A) (d0 : gmap K V) key :
  is_Some (d0 !! key) \/ In key (map k l) ->
  is_Some (fold_left (fun d a => <[k a := v a]> d) l d0 !! key).
Proof.
  revert d0. induction l as [|a l IH]; intros d0 Hkey; simpl in *.
  - destruct Hkey as [? | []]. done.
  - apply IH. destruct (decide (k a = key)) as [Heq | Hne].
    + left. rewrite <- Heq, lookup_insert_eq. eauto.
    + rewrite lookup_insert_ne by done. tauto.
Qed.

Lemma dict_of_lookup_Some (l : list A) key w :
  dict_of k v l !! key = Some w -> exists a, In a l /\ k a = key /\ v a = w.
Proof.
  intros Hl. apply dict_fold_lookup_Some in Hl as [? | Hl]; [done |].
  by rewrite lookup_empty in Hl.
Qed.

Lemma dict_of_snoc (l : list A) a :
  dict_of k v (l ++ [a]) = <[k a := v a]> (dict_of k v l).
Proof. unfold dict_of. by rewrite fold_left_app. Qed.

Lemma last_with_snoc (l : list A) a key b :
  last_with k key (l ++ [a]) b <->
  (k a = key /\ b = a) \/ (k a <> key /\ last_with k key l b).
Proof.
  split.
  - intros (before & after & Hl & Hkey & Hafter).
    destruct after as [|c after _] using rev_ind.
    + apply app_inj_tail in Hl as [_ ->]. by left.
    + change (b :: after ++ [c]) with ((b :: after) ++ [c]) in Hl.
      rewrite app_assoc in Hl. apply app_inj_tail in Hl as [-> ->].
      right. split.
      * apply Hafter. apply in_or_app. right. by left.
      * exists before, after. split; [done |]. split; [done |].
        intros d Hd. apply Hafter. apply in_or_app. by left.
  - intros [[Hkey ->] | [Hne (before & after & -> & Hkey & Hafter)]].
    + exists l, []. split; [done |]. split; [done |]. by intros d [].
    + exists before, (after ++ [a]). split; [by rewrite <- app_assoc |].
      split; [done |]. intros d Hd.
      apply in_app_or in Hd as [Hd | [<- | []]]; [by apply Hafter | done].
Qed.

(** What a dict comprehension keeps under a key is the value of the last
    item with that key. *)
Lemma dict_of_lookup_last (l : list A) key w :
  dict_of k v l !! key = Some w <-> exists a, last_with k key l a /\ v a = w.
Proof.
  revert w. induction l as [|a l IH] using rev_ind; intros w.
  - unfold dict_of. simpl. rewrite lookup_empty. split; [done |].
    intros (a & (before & after & Hl & _) & _). by destruct before.
  - rewrite dict_of_snoc. setoid_rewrite last_with_snoc.
    destruct (decide (k a = key)) as [Heq | Hne].
    + rewrite <- Heq, lookup_insert_eq. split.
      * intros [= <-]. exists a. split; [by left | done].
      * intros (b & [[_ ->] | [Hne _]] & <-); done.
    + rewrite lookup_insert_ne by done. rewrite IH. split.
      * intros (b & Hb & <-). exists b. split; [by right | done].
      * intros (b & [[Heq _] | [_ Hb]] & <-); [done |]. by exists b.
Qed.

Lemma dict_of_is_Some (l : list A) key :
  is_Some (dict_of k v l !! key) <-> In key (map k l).
Proof.
  split.
  - intros [w Hw]. apply dict_of_lookup_Some in Hw as (a & Ha & <- & _).
    by apply in_map.
  - intros Hkey. apply dict_fold_is_Some. by right.
Qed.

Lemma dict_of_dom (l : list A) : dom (dict_of k v l) = list_to_set (map k l).
Proof.
  apply set_eq. intros key.
  rewrite elem_of_dom, dict_of_is_Some, elem_of_list_to_set.
  symmetry. apply list_elem_of_In.
Qed.
End DictOf.

(** ** Shape of a successful [create_schedule] *)

Lemma create_schedule_Return Solve request schedule :
  create_schedule Solve request = Return schedule ->
  missing_teachers request = [] /\
  validation_errors request = [] /\
  exists sol, Solve (fst (build_model request)) = Some sol /\
              schedule = collect_schedule request (snd (build_model request)) sol.
Proof.
  unfold create_schedule.
  destruct (missing_teachers request); [| discriminate].
  destruct (validation_errors request); [| discriminate].
  destruct (build_raises request); [discriminate |].
  destruct (build_model request) as [model x]; simpl.
  destruct (Solve model) as [sol |]; [| discriminate].
  intros [= <-]. eauto.
Qed.

(** A request for which building the model raises gets no schedule. *)
Lemma create_schedule_Return_no_raise Solve request schedule :
  create_schedule Solve request = Return schedule -> build_raises request = false.
Proof.
  unfold create_schedule.
  destruct (missing_teachers request); [| discriminate].
  destruct (validation_errors request); [| discriminate].
  by destruct (build_raises request).
Qed.

(** When both validation steps pass and the solver answers, the handler
    returns the collected schedule. *)
Lemma create_schedule_returns Solve request sol :
  missing_teachers request = [] ->
  validation_errors request = [] ->
  build_raises request = false ->
  Solve (fst (build_model request)) = Some sol ->
  create_schedule Solve request =
    Return (collect_schedule request (snd (build_model request)) sol).
Proof.
  intros Hmissing Herrors Hraises Hsol. unfold create_schedule.
  rewrite Hmissing, Herrors, Hraises. destruct (build_model request) as [model x].
  simpl in *. by rewrite Hsol.
Qed.

Lemma in_collect_schedule request x sol e :
  In e (collect_schedule request x sol) ->
  exists g s_idx d t,
    In g (groups request) /\ In s_idx (range (sessions g)) /\
    In (d, t) (time_slots request) /\
    sol (xvar x g s_idx d t) = 1 /\
    e = schedule_entry request g s_idx d t.
Proof.
  unfold collect_schedule, session_entries. intros He.
  apply in_flat_map in He as (g & Hg & He).
  apply in_flat_map in He as (s_idx & Hs & He).
  apply in_flat_map in He as ([d t] & Hdt & He). simpl in He.
  destruct (Z.eqb_spec (sol (xvar x g s_idx d t)) 1) as [Hv |]; [| by destruct He].
  destruct He as [<- | []]. exists g, s_idx, d, t. auto.
Qed.

Lemma in_time_slots request d t :
  In (d, t) (time_slots request) <->
  In d (map day_Id (days request)) /\ In t (map time_Id (time_intervals request)).
Proof.
  unfold time_slots. rewrite in_flat_map. setoid_rewrite in_map_iff. split.
  - intros (dy & Hdy & ti & [= <- <-] & Hti). split; eauto.
  - intros [(dy & <- & Hdy) (ti & <- & Hti)].
    exists dy. split; [done |]. exists ti. split; done.
Qed.

(** ** Insertion-ordered dicts *)

Section Assoc.
Context {K V : Type} `{EqDecision K}.

Lemma assoc_get_set (k i : K) (v : V) (d : list (K * V)) :
  assoc_get i (assoc_set k v d) = if decide (i = k) then Some v else assoc_get i d.
Proof.
  induction d as [|[k' v'] d IH]; simpl.
  - by destruct (decide (i = k)).
  - destruct (decide (k = k')) as [-> | Hkk']; simpl.
    + destruct (decide (i = k')); done.
    + destruct (decide (i = k')) as [-> | Hik'].
      * by rewrite decide_False by congruence.
      * done.
Qed.

Lemma assoc_set_keys (k : K) (v : V) (d : list (K * V)) :
  map fst (assoc_set k v d) =
  if decide (In k (map fst d)) then map fst d else map fst d ++ [k].
Proof.
  induction d as [|[k' v'] d IH].
  - simpl. by destruct (decide (In k [])).
  - cbn [assoc_set map fst].
    destruct (decide (In k (k' :: map fst d))) as [Hin | Hnin];
      destruct (decide (k = k')) as [-> | Hkk']; cbn [map fst app].
    + done.
    + rewrite IH. destruct (decide (In k (map fst d))); [done |].
      destruct Hin; congruence.
    + destruct Hnin. by left.
    + rewrite IH. destruct (decide (In k (map fst d))); [| done].
      destruct Hnin. by right.
Qed.

Lemma assoc_set_NoDup (k : K) (v : V) (d : list (K * V)) :
  NoDup (map fst d) -> NoDup (map fst (assoc_set k v d)).
Proof.
  intros Hd. rewrite assoc_set_keys. destruct (decide (In k (map fst d))); [done |].
  apply NoDup_app. split; [done |]. split.
  - intros x Hx Hx'. apply list_elem_of_singleton in Hx'. subst.
    by apply list_elem_of_In in Hx.
  - apply NoDup_singleton.
Qed.

Lemma assoc_get_In (i : K) (v : V) (d : list (K * V)) :
  assoc_get i d = Some v -> In (i, v) d.
Proof.
  induction d as [|[k' v'] d IH]; simpl; [done |].
  destruct (decide (i = k')) as [-> | ?].
  - intros [= ->]. by left.
  - intros Hi. right. by apply IH.
Qed.

Lemma In_assoc_get (i : K) (v : V) (d : list (K * V)) :
  NoDup (map fst d) -> In (i, v) d -> assoc_get i d = Some v.
Proof.
  induction d as [|[k' v'] d IH]; simpl; [done |].
  intros Hnd [[= -> ->] | Hin].
  - by rewrite decide_True.
  - apply NoDup_cons in Hnd as [Hk' Hnd]. rewrite decide_False; [by apply IH |].
    intros ->. apply Hk'. apply list_elem_of_In, in_map_iff. by exists (k', v).
Qed.

Lemma assoc_get_None (i : K) (d : list (K * V)) :
  assoc_get i d = None <-> ~ In i (map fst d).
Proof.
  induction d as [|[k' v'] d IH]; simpl; [tauto |].
  destruct (decide (i = k')) as [-> | ?]; [split; [done | tauto] |].
  rewrite IH. split; [intros ? [? | ?]; congruence | tauto].
Qed.
End Assoc.

(** ** The validation loop *)

Lemma total_sessions_absent i gs :
  ~ In i (map instructorId gs) -> total_sessions i gs = 0.
Proof.
  induction gs as [|g gs IH]; simpl; [done |]. intros Hi.
  rewrite decide_False by tauto. rewrite IH by tauto. done.
Qed.

Lemma count_sessions_NoDup gs d :
  NoDup (map fst d) -> NoDup (map fst (fold_left count_sessions gs d)).
Proof.
  revert d. induction gs as [|g gs IH]; intros d Hd; simpl; [done |].
  apply IH. by apply assoc_set_NoDup.
Qed.

Lemma count_sessions_get i gs d :
  assoc_get i (fold_left count_sessions gs d) =
  if decide (In i (map instructorId gs))
  then Some (default 0 (assoc_get i d) + total_sessions i gs)
  else assoc_get i d.
Proof.
  revert d. induction gs as [|g gs IH]; intros d.
  - by destruct (decide (In i (map instructorId []))) as [[] |].
  - cbn [fold_left map total_sessions]. rewrite IH. unfold count_sessions.
    rewrite assoc_get_set. clear IH.
    destruct (decide (i = instructorId g)) as [-> | Hne].
    + rewrite (decide_True (P := instructorId g = instructorId g)) by reflexivity.
      rewrite (decide_True (P := In _ (_ :: _))) by (left; reflexivity).
      cbn [default from_option]. unfold Datatypes.id.
      destruct (decide (In (instructorId g) (map instructorId gs))) as [Hin | Hnin].
      * f_equal. lia.
      * rewrite (total_sessions_absent _ _ Hnin). f_equal. lia.
    + rewrite (decide_False (P := instructorId g = i))
        by (intros Heq; apply Hne; symmetry; exact Heq).
      destruct (decide (In i (map instructorId gs))) as [Hin | Hnin].
      * rewrite (decide_True (P := In _ (_ :: _))) by (right; exact Hin).
        f_equal; lia.
      * rewrite (decide_False (P := In _ (_ :: _))); [reflexivity |].
        intros [Heq | Hin]; [apply Hne; symmetry; exact Heq | exact (Hnin Hin)].
Qed.

(** The items the loop iterates over: one per instructor id that occurs in
    the groups, with the total of its sessions. *)
Lemma in_sessions_per_instructor request i n :
  In (i, n) (sessions_per_instructor request) <->
  In i (map instructorId (groups request)) /\ n = total_sessions i (groups request).
Proof.
  unfold sessions_per_instructor.
  pose proof (count_sessions_get i (groups request) []) as Hget.
  pose proof (count_sessions_NoDup (groups request) [] (NoDup_nil_2)) as Hnd.
  split.
  - intros Hin. apply (In_assoc_get _ _ _ Hnd) in Hin. rewrite Hin in Hget.
    destruct (decide (In i (map instructorId (groups request)))); [| done].
    cbn in Hget. injection Hget as ->. done.
  - intros [Hi ->]. apply assoc_get_In. rewrite Hget, decide_True by done. done.
Qed.

Lemma check_instructor_app amap errors item :
  check_instructor amap errors item = errors ++ check_instructor amap [] item.
Proof.
  unfold check_instructor. destruct item as [i n].
  destruct (amap !! i) as [a |]; [| done].
  destruct (rule1 a n), (rule2 a n), (rule3 a n); simpl;
    rewrite <- ?app_assoc, ?app_nil_r; done.
Qed.

Lemma fold_check_instructor amap items errors :
  fold_left (check_instructor amap) items errors =
  errors ++ flat_map (check_instructor amap []) items.
Proof.
  revert errors. induction items as [|item items IH]; intros errors; simpl.
  - by rewrite app_nil_r.
  - rewrite IH, check_instructor_app, <- app_assoc. done.
Qed.

(** Every message in [errors] was appended in the iteration of some
    instructor, and every message of an iteration is in [errors]. *)
Lemma in_validation_errors request v :
  In v (validation_errors request) <->
  exists i, In i (map instructorId (groups request)) /\
            In v (check_instructor (availability_map request) []
                                   (i, total_sessions i (groups request))).
Proof.
  unfold validation_errors. rewrite fold_check_instructor. simpl.
  rewrite in_flat_map. split.
  - intros ([i n] & Hin & Hv). apply in_sessions_per_instructor in Hin as [Hi ->].
    eauto.
  - intros (i & Hi & Hv). exists (i, total_sessions i (groups request)).
    split; [| done]. by apply in_sessions_per_instructor.
Qed.

(** Case analysis on [H : In v [v1; ...; vn]], dropping the cases where [v]
    and [vi] are distinct constructors. *)
Ltac in_cases H :=
  repeat (destruct H as [H | H]; [try discriminate H |]);
  try (match type of H with False => destruct H end).

Lemma rule1_spec a n : rule1 a n = true <-> Z.of_nat (length (slots a)) < n.
Proof. unfold rule1. apply Z.ltb_lt. Qed.

Lemma rule2_spec a n : rule2 a n = true <-> maxHours a = 0 /\ 0 < n.
Proof.
  unfold rule2. rewrite andb_true_iff, Z.eqb_eq, Z.gtb_ltb, Z.ltb_lt. done.
Qed.

Lemma rule3_spec a n : rule3 a n = true <-> 0 < maxHours a /\ maxHours a < n.
Proof.
  unfold rule3. rewrite andb_true_iff, !Z.gtb_ltb, !Z.ltb_lt. done.
Qed.

(** The record the loop reads for an instructor id is the last record of
    the request with that [teacherId]. *)
Lemma availability_map_last request i a :
  availability_map request !! i = Some a <->
  last_with teacherId i (availability request) a.
Proof.
  unfold availability_map. rewrite dict_of_lookup_last. split.
  - by intros (b & Hb & ->).
  - intros Ha. by exists a.
Qed.

(** C6. The validation loop appends the hour-budget message for instructor
    id [i] exactly when the request has an availability record with
    [teacherId] [i] and the last such record has a max-hours that is positive
    and smaller than the raw total of the sessions of the groups with
    [instructorId] [i]; the message carries that record's teacher name, the
    total and the max-hours.  The total is the plain sum of [sessions], with no
    2-per-THEORY weighting. *)
Theorem C6_hour_budget_exceeded_iff request t i n m :
  In (HourBudgetExceeded t i n m) (validation_errors request) <->
  exists a, last_with teacherId i (availability request) a /\
            t = teacher a /\ n = total_sessions i (groups request) /\ m = maxHours a /\
            0 < maxHours a /\ maxHours a < total_sessions i (groups request).
Proof.
  setoid_rewrite <- availability_map_last.
  rewrite in_validation_errors. split.
  - intros (j & Hj & Hv). unfold check_instructor in Hv.
    destruct (availability_map request !! j) as [a |] eqn:Ha.
    + destruct (rule3 a _) eqn:H3.
      * apply rule3_spec in H3.
        destruct (rule1 a _), (rule2 a _); simpl in Hv; in_cases Hv;
          injection Hv as <- <- <- <-; exists a; tauto.
      * destruct (rule1 a _), (rule2 a _); simpl in Hv; in_cases Hv.
    + simpl in Hv. in_cases Hv.
  - intros (a & Ha & -> & -> & -> & Hpos & Hlt).
    assert (In i (map instructorId (groups request))) as Hi.
    { destruct (decide (In i (map instructorId (groups request)))) as [|Hn]; [done |].
      rewrite (total_sessions_absent _ _ Hn) in Hlt. lia. }
    exists i. split; [done |]. unfold check_instructor. rewrite Ha.
    assert (rule3 a (total_sessions i (groups request)) = true) as ->
      by (apply rule3_spec; lia).
    apply in_or_app. right. by left.
Qed.

(** C7. The validation loop runs to completion and accumulates: for every
    instructor id of a group, with its raw session total, the list [errors]
    holds the no-availability message when the id has no record, and otherwise
    the message of each of the three rules whose condition holds.  When the
    earlier missing-instructors check passes and [errors] is not empty, the
    request fails with the whole list, whatever the solver would answer: no
    model is solved. *)
Theorem C7_all_violations_accumulate Solve request :
  let errors := validation_errors request in
  (forall g, In g (groups request) ->
     let i := instructorId g in
     let n := total_sessions i (groups request) in
     match availability_map request !! i with
     | None => In (NoAvailabilityDefined i) errors
     | Some a =>
         (rule1 a n = true ->
          In (InsufficientSlots (teacher a) i n (length (slots a))) errors) /\
         (rule2 a n = true -> In (ZeroHourBudget (teacher a) i n) errors) /\
         (rule3 a n = true -> In (HourBudgetExceeded (teacher a) i n (maxHours a)) errors)
     end) /\
  (missing_teachers request = [] -> errors <> [] ->
   create_schedule Solve request = HTTPException (ValidationErrors errors)).
Proof.
  intros errors. split.
  - intros g Hg i n.
    assert (forall v, In v (check_instructor (availability_map request) [] (i, n)) ->
                      In v errors) as Hsub.
    { intros v Hv. apply in_validation_errors. exists i. split; [| done].
      by apply in_map. }
    unfold check_instructor in Hsub.
    destruct (availability_map request !! i) as [a |].
    + repeat split; intros Hr; apply Hsub; rewrite Hr;
        destruct (rule1 a n), (rule2 a n), (rule3 a n); simpl; tauto.
    + apply Hsub. by left.
  - intros Hmissing Herrors. unfold create_schedule. rewrite Hmissing.
    subst errors. by destruct (validation_errors request).
Qed.

(** In the overbooked request "i1" has five sessions, and the only record
    with that [teacherId] allows two hours. *)
Lemma C6_witness :
  In (HourBudgetExceeded "Bob" "i1" 5 2) (validation_errors Examples.req_overbooked).
Proof.
  apply (proj2 (C6_hour_budget_exceeded_iff Examples.req_overbooked "Bob" "i1" 5 2)).
  exists {| teacher := "Bob"; teacherId := "i1";
            slots := [Examples.slot_at "d1" "t1"]; maxHours := 2 |}.
  split.
  - exists [], [ {| teacher := "Ann"; teacherId := "i2";
                    slots := Examples.all_four_slots; maxHours := 0 |} ].
    split; [reflexivity |]. split; [reflexivity |].
    intros b [<- | []]. discriminate.
  - repeat split; reflexivity.
Defined.

(** In the overbooked request every rule fires for some instructor, and all
    three messages come back together. *)
Lemma C7_witness :
  create_schedule brute_force Examples.req_overbooked =
  HTTPException (ValidationErrors
    [ InsufficientSlots "Bob" "i1" 5 1;
      HourBudgetExceeded "Bob" "i1" 5 2;
      ZeroHourBudget "Ann" "i2" 1 ]).
Proof.
  apply (proj2 (C7_all_violations_accumulate brute_force Examples.req_overbooked)).
  - vm_compute. reflexivity.
  - vm_compute. discriminate.
Defined.

(** ** The missing-instructors check *)

Global Instance str_le_total : Total str_le.
Proof. intros a b. apply String.leb_total. Qed.

Lemma in_missing_teachers request t :
  In t (missing_teachers request) <->
  In t (map instructor (groups request)) /\
  ~ In t (map teacher (availability request)).
Proof.
  unfold missing_teachers, instructor_set, availability_dict.
  rewrite <- !list_elem_of_In, merge_sort_Permutation, elem_of_elements.
  rewrite elem_of_difference, dict_of_dom, !elem_of_list_to_set. done.
Qed.

(** C5, as the code has it.  The request-level check compares instructor
    names: when some group's [instructor] is the [teacher] of no availability
    record, the request fails with the missing-instructors error, which lists
    in sorted order exactly the group instructor names that are the teacher of
    no record.  The result does not depend on what the per-instructor loop
    would find.  (An [instructorId] that is the [teacherId] of no record is
    not seen by this check; the loop reports it.) *)
Theorem C5_missing_instructor_names Solve request :
  (exists g, In g (groups request) /\
             ~ In (instructor g) (map teacher (availability request))) ->
  create_schedule Solve request =
    HTTPException (MissingInstructors (missing_teachers request)) /\
  missing_teachers request <> [] /\
  Sorted str_le (missing_teachers request) /\
  (forall t, In t (missing_teachers request) <->
             In t (map instructor (groups request)) /\
             ~ In t (map teacher (availability request))).
Proof.
  intros (g & Hg & Hmiss).
  assert (In (instructor g) (missing_teachers request)) as Hin.
  { apply in_missing_teachers. split; [by apply in_map | done]. }
  assert (missing_teachers request <> []) as Hne.
  { intros Hnil. by rewrite Hnil in Hin. }
  split; [| split; [| split]].
  - unfold create_schedule. by destruct (missing_teachers request).
  - done.
  - apply Sorted_merge_sort. apply _.
  - intros t. apply in_missing_teachers.
Qed.

Lemma C5_witness :
  create_schedule brute_force Examples.req_missing_teacher =
  HTTPException (MissingInstructors ["Bob"]).
Proof.
  refine (proj1 (C5_missing_instructor_names brute_force Examples.req_missing_teacher _)).
  exists (Examples.algebra 1). split.
  - by left.
  - vm_compute. intros [H | []]. discriminate H.
Defined.

(** C5, as stated, fails: in [req_id_mismatch] the group's [instructorId]
    "i1" is the [teacherId] of no availability record, yet the request passes
    the request-level check and fails inside the per-instructor loop, with
    the aggregated validation error. *)
Lemma C5_counterexample :
  (exists g, In g (groups Examples.req_id_mismatch) /\
             ~ In (instructorId g)
                  (map teacherId (availability Examples.req_id_mismatch))) /\
  create_schedule brute_force Examples.req_id_mismatch =
    HTTPException (ValidationErrors [NoAvailabilityDefined "i1"]) /\
  (forall missing, create_schedule brute_force Examples.req_id_mismatch <>
                   HTTPException (MissingInstructors missing)).
Proof.
  split; [| split].
  - exists (Examples.algebra 1). split; [by left |].
    vm_compute. intros [H | []]. discriminate H.
  - vm_compute. reflexivity.
  - intros missing. vm_compute. discriminate.
Qed.

(** The message the loop appends for that request, as the client reads
    it. *)
Example id_mismatch_detail :
  render_error (ValidationErrors (validation_errors Examples.req_id_mismatch)) =
  DetailList ["Instructor i1 has assigned groups but no availability defined."].
Proof. vm_compute. reflexivity. Qed.

Example overbooked_detail :
  render_error (ValidationErrors (validation_errors Examples.req_overbooked)) =
  DetailList
    [ "Instructor Bob (i1) has 5 sessions but only 1 slots.";
      "Instructor Bob (i1) is assigned 5 sessions but only allowed maxHours=2.";
      "Instructor Ann with id : (i2) has max Hours=0 but is assigned 1 sessions." ].
Proof. vm_compute. reflexivity. Qed.

(** ** Day and time names *)



(** The fallback of C10 is never taken: the ids of an entry come from the
    request's own [days] and [time_intervals], so both dicts have them. *)
Lemma day_time_names_resolved Solve request schedule e d t :
  create_schedule Solve request = Return schedule ->
  In e schedule ->
  dict_get "DayId" e = Some (VStr d) ->
  dict_get "TimeId" e = Some (VStr t) ->
  is_Some (day_id_to_name request !! d) /\ is_Some (time_id_to_name request !! t).
Proof.
  intros Hret He Hd Ht. apply create_schedule_Return in Hret as (_ & _ & sol & _ & ->).
  apply in_collect_schedule in He as (g & s_idx & d' & t' & _ & _ & Hdt & _ & ->).
  injection Hd as <-. injection Ht as <-.
  apply in_time_slots in Hdt as [Hd Ht].
  split; by apply dict_of_is_Some.
Qed.

(** ** Building a model *)

Lemma extends_refl m : extends m m.
Proof. split; [done |]. exists []. by rewrite app_nil_r. Qed.

Lemma extends_trans m1 m2 m3 : extends m1 m2 -> extends m2 m3 -> extends m1 m3.
Proof.
  intros [Hn1 [cs1 Hc1]] [Hn2 [cs2 Hc2]]. split; [congruence |].
  exists (cs1 ++ cs2). by rewrite Hc2, Hc1, app_assoc.
Qed.

Lemma extends_Add c m : extends m (Add c m).
Proof. split; [done |]. by exists [c]. Qed.

Lemma extends_In m m' c : extends m m' -> In c (constraints m) -> In c (constraints m').
Proof. intros [_ [cs ->]] Hc. apply in_or_app. by left. Qed.

Lemma In_Add c m : In c (constraints (Add c m)).
Proof. simpl. apply in_or_app. right. by left. Qed.

(** A loop whose every iteration only adds constraints only adds
    constraints. *)
Lemma extends_fold {A : Type} (step : CpModel -> A -> CpModel) (l : list A) :
  (forall m a, extends m (step m a)) ->
  forall m, extends m (fold_left step l m).
Proof.
  intros Hstep. induction l as [|a l IH]; intros m; simpl.
  - apply extends_refl.
  - eapply extends_trans; [apply Hstep | apply IH].
Qed.

(** A constraint added in the iteration of [a] is in the model after the
    loop. *)
Lemma In_fold {A : Type} (step : CpModel -> A -> CpModel) (l : list A) a c :
  (forall m a, extends m (step m a)) ->
  In a l ->
  (forall m, In c (constraints (step m a))) ->
  forall m, In c (constraints (fold_left step l m)).
Proof.
  intros Hstep Ha Hc. induction l as [|b l IH]; intros m; simpl; [done |].
  destruct Ha as [-> | Ha].
  - eapply extends_In; [by apply extends_fold | apply Hc].
  - by apply IH.
Qed.

Create HintDb model discriminated.
#[local] Hint Resolve extends_refl extends_Add In_Add : model.
#[local] Hint Extern 2 (extends _ (fold_left _ _ _)) =>
  apply extends_fold; intros : model.
#[local] Hint Extern 1 (extends _ (let '(_, _) := ?p in _)) => destruct p : model.
#[local] Hint Extern 1 (extends _ (if ?b then _ else _)) => destruct b : model.
#[local] Hint Extern 1 (extends _ (match ?o with Some _ => _ | None => _ end)) =>
  destruct o : model.

Lemma add_exactly_once_extends gs ts x m : extends m (add_exactly_once gs ts x m).
Proof. unfold add_exactly_once. auto 6 with model. Qed.

Lemma add_instructor_overlap_extends gs ts x m :
  extends m (add_instructor_overlap gs ts x m).
Proof. unfold add_instructor_overlap. auto 6 with model. Qed.

Lemma add_availability_extends gs ts x adict m :
  extends m (add_availability gs ts x adict m).
Proof. unfold add_availability. auto 10 with model. Qed.

Lemma add_course_overlap_extends gs ts x m : extends m (add_course_overlap gs ts x m).
Proof. unfold add_course_overlap. auto 6 with model. Qed.

Lemma add_slot_capacity_extends gs ts x k m : extends m (add_slot_capacity gs ts x k m).
Proof. unfold add_slot_capacity. auto 6 with model. Qed.

Lemma add_max_hours_extends gs ts x mdict m : extends m (add_max_hours gs ts x mdict m).
Proof. unfold add_max_hours. auto 6 with model. Qed.

Lemma add_room_constraints_extends gs rs y m :
  extends m (add_room_constraints gs rs y m).
Proof.
  unfold add_room_constraints. cbv zeta.
  match goal with
  | |- extends _ (fold_left _ _ ?m') => apply extends_trans with m'
  end; auto with model.
Qed.

#[local] Hint Resolve add_exactly_once_extends add_instructor_overlap_extends
  add_availability_extends add_course_overlap_extends add_slot_capacity_extends
  add_max_hours_extends add_room_constraints_extends : model.

Lemma In_exactly_once gs ts x m g s_idx :
  In g gs -> In s_idx (range (sessions g)) ->
  In (exactly_once_ct ts x g s_idx) (constraints (add_exactly_once gs ts x m)).
Proof.
  intros Hg Hs. unfold add_exactly_once.
  apply In_fold with (a := g); [auto 6 with model | done |]. intros m'.
  apply In_fold with (a := s_idx); auto with model.
Qed.

Lemma In_max_hours gs ts x mdict m inst max_hours :
  In inst (map instructor gs) -> mdict !! inst = Some max_hours ->
  In (max_hours_ct gs ts x inst max_hours) (constraints (add_max_hours gs ts x mdict m)).
Proof.
  intros Hinst Hmax. unfold add_max_hours.
  apply In_fold with (a := inst); [auto 6 with model | |].
  - apply list_elem_of_In, elem_of_elements, elem_of_list_to_set. by apply list_elem_of_In.
  - intros m'. rewrite Hmax. apply In_Add.
Qed.

Lemma In_one_room gs rs y m g :
  In g gs -> In (one_room_ct rs y g) (constraints (add_room_constraints gs rs y m)).
Proof.
  intros Hg. unfold add_room_constraints.
  eapply extends_In; [apply extends_fold; auto with model |].
  apply In_fold with (a := g); auto with model.
Qed.

Lemma In_one_group gs rs y m r :
  In r rs -> In (one_group_ct gs y r) (constraints (add_room_constraints gs rs y m)).
Proof.
  intros Hr. unfold add_room_constraints.
  apply In_fold with (a := r); auto with model.
Qed.

(** ** Declaring variables *)

Lemma fold_left_ext {A S : Type} (f g : S -> A -> S) (l : list A) :
  (forall st a, f st a = g st a) -> forall st, fold_left f l st = fold_left g l st.
Proof.
  intros Hfg. induction l as [|a l IH]; intros st; simpl; [done |].
  by rewrite Hfg, IH.
Qed.

Lemma fold_left_flat_map {A B S : Type} (f : S -> B -> S) (g : A -> list B) (l : list A) :
  forall st,
    fold_left f (flat_map g l) st = fold_left (fun st a => fold_left f (g a) st) l st.
Proof.
  induction l as [|a l IH]; intros st; simpl; [done |].
  by rewrite fold_left_app, IH.
Qed.

Lemma fold_left_map {A B S : Type} (f : S -> B -> S) (g : A -> B) (l : list A) :
  forall st, fold_left f (map g l) st = fold_left (fun st a => f st (g a)) l st.
Proof. induction l as [|a l IH]; intros st; simpl; [done |]. by rewrite IH. Qed.

Section Declare.
Context {K : Type} `{Countable K}.
Implicit Types (st : CpModel * gmap K var) (keys : list K).

Lemma declare_all_constraints keys st :
  constraints (fst (declare_all keys st)) = constraints (fst st).
Proof.
  revert st. induction keys as [|k keys IH]; intros st; [done |].
  unfold declare_all in *. simpl. by rewrite IH.
Qed.

Lemma declare_all_bounded keys st : bounded st -> bounded (declare_all keys st).
Proof.
  revert st. induction keys as [|k keys IH]; intros st Hst; [done |].
  unfold declare_all in *. simpl. apply IH.
  intros k' v. unfold declare_var. simpl.
  destruct (decide (k = k')) as [-> | Hne].
  - rewrite lookup_insert_eq. intros [= <-]. lia.
  - rewrite lookup_insert_ne by done. intros Hv. apply Hst in Hv. lia.
Qed.

Lemma declare_all_dom keys st k :
  is_Some (snd (declare_all keys st) !! k) <-> is_Some (snd st !! k) \/ In k keys.
Proof.
  revert st. induction keys as [|k' keys IH]; intros st.
  - simpl. tauto.
  - unfold declare_all in *. simpl. rewrite IH. unfold declare_var. simpl.
    destruct (decide (k' = k)) as [-> | Hne].
    + rewrite lookup_insert_eq. split; [tauto | eauto].
    + rewrite lookup_insert_ne by done. split; [tauto |].
      intros [? | [? | ?]]; tauto.
Qed.
End Declare.

Lemma declare_all_num_vars {K : Type} `{Countable K} (keys : list K)
    (st : CpModel * gmap K var) :
  num_vars (fst (declare_all keys st)) = (num_vars (fst st) + length keys)%nat.
Proof.
  revert st. induction keys as [|k keys IH]; intros st; [simpl; lia |].
  unfold declare_all in *. simpl. rewrite IH. simpl. lia.
Qed.


Lemma declare_vars_keys gs ts st :
  declare_vars gs ts st = declare_all (session_keys gs ts) st.
Proof.
  unfold declare_vars, declare_all, session_keys.
  rewrite fold_left_flat_map. revert st. apply fold_left_ext. intros st g.
  rewrite fold_left_flat_map. revert st. apply fold_left_ext. intros st s_idx.
  rewrite fold_left_map. revert st. apply fold_left_ext. by intros st [d t].
Qed.

Lemma declare_rooms_keys gs rs st :
  declare_rooms gs rs st = declare_all (room_keys gs rs) st.
Proof.
  unfold declare_rooms, declare_all, room_keys.
  rewrite fold_left_flat_map. revert st. apply fold_left_ext. intros st g.
  rewrite fold_left_flat_map. revert st. apply fold_left_ext. intros st r.
  by destruct (compatible g r).
Qed.

Lemma in_session_keys gs ts g s_idx d t :
  In g gs -> In s_idx (range (sessions g)) -> In (d, t) ts ->
  In (id g, s_idx, d, t) (session_keys gs ts).
Proof.
  intros Hg Hs Hdt. unfold session_keys.
  apply in_flat_map. exists g. split; [done |].
  apply in_flat_map. exists s_idx. split; [done |].
  apply in_map_iff. by exists (d, t).
Qed.

(** A variable is declared for the pair of ids [(gid, rid)] exactly when some
    group of the slot with id [gid] and some room with id [rid] are
    compatible. *)
Lemma in_room_keys gs rs gid rid :
  In (gid, rid) (room_keys gs rs) <->
  exists g r, In g gs /\ In r rs /\ sg_id g = gid /\ room_id r = rid /\
              compatible g r = true.
Proof.
  unfold room_keys. rewrite in_flat_map. split.
  - intros (g & Hg & Hin). apply in_flat_map in Hin as (r & Hr & Hin).
    destruct (compatible g r) eqn:Hc; [| by destruct Hin].
    destruct Hin as [[= <- <-] | []]. exists g, r. auto.
  - intros (g & r & Hg & Hr & <- & <- & Hc). exists g. split; [done |].
    apply in_flat_map. exists r. split; [done |]. rewrite Hc. by left.
Qed.

Lemma bounded_new {K : Type} `{Countable K} : bounded (new_model, (∅ : gmap K var)).
Proof. intros k v. simpl. by rewrite lookup_empty. Qed.

(** ** The timetable model *)

Lemma build_model_facts request :
  let gs := groups request in
  let ts := time_slots request in
  let st := declare_all (session_keys gs ts) (new_model, ∅) in
  let m := fst (build_model request) in
  let x := snd (build_model request) in
  x = snd st /\
  num_vars m = num_vars (fst st) /\
  (forall g s_idx, In g gs -> In s_idx (range (sessions g)) ->
                   In (exactly_once_ct ts x g s_idx) (constraints m)) /\
  (forall inst max_hours,
     In inst (map instructor gs) -> max_hours_dict request !! inst = Some max_hours ->
     In (max_hours_ct gs ts x inst max_hours) (constraints m)).
Proof.
  intros gs ts st m x. subst m x. unfold build_model. rewrite declare_vars_keys.
  fold gs ts st. destruct st as [m0 x]. simpl.
  set (m1 := add_exactly_once gs ts x m0).
  set (m2 := add_instructor_overlap gs ts x m1).
  set (m3 := add_availability gs ts x (availability_dict request) m2).
  set (m4 := add_course_overlap gs ts x m3).
  set (m5 := add_slot_capacity gs ts x (max_courses_per_slot request) m4).
  assert (extends m1 m5) as H15.
  { apply extends_trans with m2; [apply add_instructor_overlap_extends |].
    apply extends_trans with m3; [apply add_availability_extends |].
    apply extends_trans with m4; [apply add_course_overlap_extends |].
    apply add_slot_capacity_extends. }
  assert (extends m0 m1) as H01 by apply add_exactly_once_extends.
  split; [done |]. split; [| split].
  - transitivity (num_vars m5); [apply add_max_hours_extends |].
    transitivity (num_vars m1); [apply H15 | apply H01].
  - intros g s_idx Hg Hs.
    eapply extends_In; [apply add_max_hours_extends |].
    eapply extends_In; [apply H15 |]. by apply In_exactly_once.
  - intros inst max_hours Hinst Hmax. by apply In_max_hours.
Qed.

(** ** The reference solver meets the contract *)

Lemma holdsb_holds sol c : holdsb sol c = true -> holds sol c.
Proof.
  unfold holdsb, holds. destruct (cmp c); [apply Z.eqb_eq | apply Z.leb_le].
Qed.

Lemma brute_force_sound : sound brute_force.
Proof.
  intros m sol Hsol. unfold brute_force in Hsol.
  destruct (List.find _ _) as [bits |] eqn:Hfind; [| discriminate].
  injection Hsol as <-. apply find_some in Hfind as [_ Hall]. split.
  - intros v _. unfold assignment_of. destruct (nth v bits false); auto.
  - apply List.Forall_forall. intros c Hc. apply holdsb_holds.
    rewrite forallb_forall in Hall. by apply Hall.
Qed.

(** ** Sums of 0/1 variables *)

Lemma eval_app sol e1 e2 : eval sol (e1 ++ e2) = eval sol e1 + eval sol e2.
Proof.
  induction e1 as [|[c v] e1 IH]; simpl; [done |]. rewrite IH. lia.
Qed.

Lemma flat_map_singleton {A B : Type} (f : A -> B) (l : list A) :
  flat_map (fun a => [f a]) l = map f l.
Proof. induction l as [|a l IH]; simpl; [done |]. by rewrite IH. Qed.


(** A sum of 0/1 variables with coefficient 1 counts the variables at 1,
    which is the number of elements that a loop keeping the items whose
    variable is 1 outputs. *)
Lemma eval_counts_ones {A B : Type} (f : A -> var) (h : A -> B) sol (l : list A) :
  (forall a, In a l -> sol (f a) = 0 \/ sol (f a) = 1) ->
  eval sol (map (fun a => (1, f a)) l) =
  Z.of_nat (length (flat_map (fun a => if sol (f a) =? 1 then [h a] else []) l)).
Proof.
  induction l as [|a l IH]; intros Hbin; simpl; [done |].
  rewrite length_app, IH by (intros b Hb; apply Hbin; by right).
  destruct (Hbin a) as [-> | ->]; [by left | |]; simpl; lia.
Qed.

Lemma exactly_one_kept {A B : Type} (f : A -> var) (h : A -> B) sol (l : list A) :
  (forall a, In a l -> sol (f a) = 0 \/ sol (f a) = 1) ->
  eval sol (map (fun a => (1, f a)) l) = 1 ->
  exists a, In a l /\ sol (f a) = 1 /\
            flat_map (fun a => if sol (f a) =? 1 then [h a] else []) l = [h a].
Proof.
  intros Hbin Hsum. rewrite (eval_counts_ones f h) in Hsum by done.
  destruct (flat_map _ l) as [|b [|b' kept]] eqn:Hkept; simpl in Hsum; try lia.
  assert (In b (flat_map (fun a => if sol (f a) =? 1 then [h a] else []) l)) as Hb
    by (rewrite Hkept; by left).
  apply in_flat_map in Hb as (a & Ha & Hb).
  destruct (Z.eqb_spec (sol (f a)) 1) as [H1 |]; [| by destruct Hb].
  destruct Hb as [<- | []]. eauto.
Qed.

Lemma NoDup_map_inj {A B : Type} (f : A -> B) (l : list A) :
  (forall a b, In a l -> In b l -> f a = f b -> a = b) ->
  NoDup l -> NoDup (map f l).
Proof.
  induction l as [|a l IH]; intros Hinj Hl; simpl; [apply NoDup_nil_2 |].
  apply NoDup_cons in Hl as [Ha Hl]. apply NoDup_cons. split.
  - rewrite list_elem_of_In, in_map_iff. intros (b & Hfb & Hb).
    apply Ha, list_elem_of_In. rewrite (Hinj a b); [done | by left | by right | done].
  - apply IH; [| done]. intros b c Hb Hc. apply Hinj; by right.
Qed.

Lemma in_range n s_idx : In s_idx (range n) <-> Z.of_nat s_idx < n.
Proof. unfold range. rewrite in_seq. lia. Qed.



(** ** Weighted hours of a schedule *)

Lemma instructor_hours_app inst l1 l2 :
  instructor_hours inst (l1 ++ l2) = instructor_hours inst l1 + instructor_hours inst l2.
Proof. induction l1 as [|e l1 IH]; simpl; [done |]. rewrite IH. lia. Qed.

(** A nested loop that emits entries and a nested sum that have the same
    value at each item have the same value overall; [c] is a condition that
    does not depend on the item. *)
Lemma hours_flat_map_cond {A : Type} inst sol (c : Prop) `{Decision c}
    (F : A -> list pydict) (E : A -> list (Z * var)) (l : list A) :
  (forall a, In a l ->
             instructor_hours inst (F a) = if decide c then eval sol (E a) else 0) ->
  instructor_hours inst (flat_map F l) = if decide c then eval sol (flat_map E l) else 0.
Proof.
  induction l as [|a l IH]; intros HFE; simpl.
  - by destruct (decide c).
  - rewrite instructor_hours_app, eval_app, HFE by (by left).
    rewrite IH by (intros b Hb; apply HFE; by right).
    destruct (decide c); lia.
Qed.

Lemma hours_flat_map_filter {A : Type} inst sol (P : A -> Prop) `{forall a, Decision (P a)}
    (F : A -> list pydict) (E : A -> list (Z * var)) (l : list A) :
  (forall a, In a l ->
             instructor_hours inst (F a) = if decide (P a) then eval sol (E a) else 0) ->
  instructor_hours inst (flat_map F l) = eval sol (flat_map E (filter P l)).
Proof.
  induction l as [|a l IH]; intros HFE; simpl; [done |].
  rewrite instructor_hours_app, HFE by (by left).
  rewrite IH by (intros b Hb; apply HFE; by right).
  rewrite filter_cons. destruct (decide (P a)); simpl; [| done].
  by rewrite eval_app.
Qed.

Lemma entry_hours_schedule_entry request g s_idx d t inst :
  entry_hours inst (schedule_entry request g s_idx d t) =
  if decide (instructor g = inst) then hour_cost g else 0.
Proof.
  unfold entry_hours, hour_cost.
  change (dict_get "Instructor" (schedule_entry request g s_idx d t))
    with (Some (VStr (instructor g))).
  change (dict_get "Type" (schedule_entry request g s_idx d t))
    with (Some (VInt (type g))).
  destruct (decide (instructor g = inst)) as [-> | Hne].
  - rewrite decide_True by done.
    destruct (Z.eqb_spec (type g) 0) as [-> | Hty].
    + by rewrite decide_True.
    + rewrite decide_False; [done |]. intros [= Heq]. done.
  - rewrite decide_False; [done |]. intros [= Heq]. done.
Qed.

Lemma session_hours request x sol g s_idx inst (l : list slot_key) :
  (forall slot, In slot l ->
     sol (xvar x g s_idx slot.1 slot.2) = 0 \/ sol (xvar x g s_idx slot.1 slot.2) = 1) ->
  instructor_hours inst
    (flat_map (fun slot =>
                 if sol (xvar x g s_idx slot.1 slot.2) =? 1
                 then [schedule_entry request g s_idx slot.1 slot.2] else []) l) =
  if decide (instructor g = inst)
  then eval sol (map (fun slot => (hour_cost g, xvar x g s_idx slot.1 slot.2)) l)
  else 0.
Proof.
  intros Hbin. rewrite <- (flat_map_singleton _ l).
  apply hours_flat_map_cond. intros slot Hslot.
  destruct (Hbin slot Hslot) as [H0 | H1].
  - rewrite H0. simpl. rewrite H0. destruct (decide _); lia.
  - rewrite H1. cbn [Z.eqb Pos.eqb instructor_hours eval].
    rewrite entry_hours_schedule_entry, H1. destruct (decide _); lia.
Qed.

(** ** What the extraction loop emits *)



(** ** Schedules returned by [create_schedule] *)

Section Timetable.
Variable Solve : CpModel -> option assignment.
Hypothesis Solve_sound : sound Solve.

Variable request : ScheduleRequest.
Variable schedule : list pydict.
Hypothesis Hreturn : create_schedule Solve request = Return schedule.

Let gs := groups request.
Let ts := time_slots request.
Let model := fst (build_model request).
Let x := snd (build_model request).

Lemma returned_solution :
  exists sol, satisfies sol model /\ schedule = collect_schedule request x sol.
Proof.
  apply create_schedule_Return in Hreturn as (_ & _ & sol & Hsol & ->).
  exists sol. split; [by apply Solve_sound | done].
Qed.

Lemma xvar_binary sol g s_idx d t :
  satisfies sol model ->
  In g gs -> In s_idx (range (sessions g)) -> In (d, t) ts ->
  sol (xvar x g s_idx d t) = 0 \/ sol (xvar x g s_idx d t) = 1.
Proof.
  intros [Hbin _] Hg Hs Hdt. apply Hbin.
  destruct (build_model_facts request) as (Hx & Hn & _). subst model x.
  rewrite Hn. unfold xvar. rewrite Hx.
  pose proof (in_session_keys _ _ _ _ _ _ Hg Hs Hdt) as Hkey.
  destruct (proj2 (declare_all_dom (session_keys gs ts) (new_model, ∅) _)
                  (or_intror Hkey)) as [v Hv].
  rewrite (lookup_total_correct _ _ _ Hv).
  by apply (declare_all_bounded _ _ bounded_new _ _ Hv).
Qed.

(** The lookups [x[(g.id, s_idx, d, t)]] of the handler never miss: every
    key it reads was declared. *)
Lemma xvar_declared g s_idx d t :
  In g gs -> In s_idx (range (sessions g)) -> In (d, t) ts ->
  x !! (id g, s_idx, d, t) = Some (xvar x g s_idx d t).
Proof.
  intros Hg Hs Hdt. destruct (build_model_facts request) as (Hx & _). subst x.
  unfold xvar. rewrite Hx.
  pose proof (in_session_keys _ _ _ _ _ _ Hg Hs Hdt) as Hkey.
  destruct (proj2 (declare_all_dom (session_keys gs ts) (new_model, ∅) _)
                  (or_intror Hkey)) as [v Hv].
  by rewrite (lookup_total_correct _ _ _ Hv).
Qed.

Lemma session_scheduled_once sol g s_idx :
  satisfies sol model ->
  In g gs -> In s_idx (range (sessions g)) ->
  exists d t, In (d, t) ts /\ sol (xvar x g s_idx d t) = 1 /\
              session_entries request x sol g s_idx = [schedule_entry request g s_idx d t].
Proof.
  intros Hsat Hg Hs.
  destruct (build_model_facts request) as (_ & _ & Hct & _).
  specialize (Hct g s_idx Hg Hs).
  pose proof Hsat as [_ Hall]. rewrite List.Forall_forall in Hall.
  apply Hall in Hct. unfold holds, exactly_once_ct in Hct. simpl in Hct.
  destruct (exactly_one_kept (fun slot => xvar x g s_idx slot.1 slot.2)
              (fun slot => schedule_entry request g s_idx slot.1 slot.2)
              sol ts) as ([d t] & Hdt & H1 & Hkept).
  - intros [d t] Hdt. by apply xvar_binary.
  - exact Hct.
  - exists d, t. split; [done |]. split; [done |]. exact Hkept.
Qed.


Lemma schedule_hours sol inst :
  satisfies sol model ->
  instructor_hours inst (collect_schedule request x sol) = eval sol (hours_of gs ts x inst).
Proof.
  intros Hsat. unfold collect_schedule, hours_of.
  apply hours_flat_map_filter. intros g Hg.
  apply hours_flat_map_cond. intros s_idx Hs.
  apply session_hours. intros [d t] Hdt. by apply xvar_binary.
Qed.

(** C2, as the code has it.  The hour budget is kept and enforced by
    instructor name.  In a schedule returned with a solver whose answers
    satisfy the model they are for, for every instructor name of a group of
    the request: the request has an availability record with that teacher
    name, the max-hours that counts is that of the last such record, the model
    holds the constraint that the sum over the variables of the groups with
    that instructor name of 2 for a THEORY group and 1 otherwise is at most
    that max-hours, and the same weighted sum over the entries of the schedule
    with that [Instructor] is at most it. *)
Theorem C2_hours_within_budget inst :
  In inst (map instructor (groups request)) ->
  exists a,
    last_with teacher inst (availability request) a /\
    max_hours_dict request !! inst = Some (maxHours a) /\
    In (max_hours_ct (groups request) (time_slots request) (snd (build_model request))
                     inst (maxHours a))
       (constraints (fst (build_model request))) /\
    instructor_hours inst schedule <= maxHours a.
Proof.
  intros Hinst.
  destruct returned_solution as (sol & Hsat & Hschedule).
  pose proof Hreturn as Hret. apply create_schedule_Return in Hret as (Hmissing & _).
  assert (In inst (map teacher (availability request))) as Hteacher.
  { destruct (decide (In inst (map teacher (availability request)))) as [| Hn]; [done |].
    assert (In inst (missing_teachers request)) as Hin
      by (by apply in_missing_teachers).
    by rewrite Hmissing in Hin. }
  apply (dict_of_is_Some teacher maxHours) in Hteacher as [max_hours Hmax].
  pose proof Hmax as Hlast. apply dict_of_lookup_last in Hlast as (a & Hlast & <-).
  exists a. split; [exact Hlast |]. split; [exact Hmax |].
  destruct (build_model_facts request) as (_ & _ & _ & Hct).
  specialize (Hct inst (maxHours a) Hinst Hmax). split; [exact Hct |].
  destruct Hsat as [Hbin Hall]. rewrite List.Forall_forall in Hall.
  apply Hall in Hct. unfold holds in Hct. simpl in Hct.
  rewrite Hschedule, schedule_hours; [exact Hct | by split; [| apply List.Forall_forall]].
Qed.
End Timetable.


(** In that schedule the first session is on "d1" at "t2" and the second on
    "d1" at "t1": the two variables that the reference solver sets to 1. *)
Example two_sessions_placed :
  map placement Examples.schedule_two_sessions =
  [ (Some (VStr "G1"), Some (VInt 1), Some (VStr "d1"), Some (VStr "t2"));
    (Some (VStr "G1"), Some (VInt 2), Some (VStr "d1"), Some (VStr "t1")) ].
Proof. vm_compute. reflexivity. Qed.

(** Why the count by [GroupId] in C1 asks for distinct group ids: two groups
    of the request that share an id share their variables, and each of the
    two gets its entry, with the same [GroupId] and [Session]. *)
Remark shared_group_id_counts_twice :
  exists schedule,
    create_schedule brute_force Examples.req_shared_id = Return schedule /\
    map session_of schedule = expected_sessions (groups Examples.req_shared_id) /\
    occurrences "G1" 0 schedule = 2%nat.
Proof. eexists. split; [vm_compute; reflexivity |]. split; reflexivity. Qed.

Lemma C2_witness :
  exists a,
    last_with teacher "Bob" (availability Examples.req_two_sessions) a /\
    max_hours_dict Examples.req_two_sessions !! "Bob" = Some (maxHours a) /\
    In (max_hours_ct (groups Examples.req_two_sessions)
                     (time_slots Examples.req_two_sessions)
                     (snd (build_model Examples.req_two_sessions)) "Bob" (maxHours a))
       (constraints (fst (build_model Examples.req_two_sessions))) /\
    instructor_hours "Bob" Examples.schedule_two_sessions <= maxHours a.
Proof.
  apply (C2_hours_within_budget brute_force brute_force_sound
           Examples.req_two_sessions Examples.schedule_two_sessions).
  - vm_compute. reflexivity.
  - by left.
Defined.

(** C2, as stated, fails when instructors are told apart by id.  In
    [req_same_name] the only group belongs to instructor "i1", whose own
    availability record (the only one with that [teacherId]) declares
    max-hours 2.  The request passes both validation steps, a schedule is
    returned, every entry of it is of instructor "i1", and its two THEORY
    sessions weigh 4 hours: the bound that was enforced is the max-hours 4 of
    the later record with the same teacher name. *)
Lemma C2_counterexample :
  exists schedule a,
    create_schedule brute_force Examples.req_same_name = Return schedule /\
    last_with teacherId "i1" (availability Examples.req_same_name) a /\
    maxHours a = 2 /\
    (forall e, In e schedule ->
               dict_get "InstructorId" e = Some (VStr "i1") /\
               dict_get "Instructor" e = Some (VStr "Bob") /\
               dict_get "Type" e = Some (VInt 0)) /\
    length schedule = 2%nat /\
    instructor_hours "Bob" schedule = 4 /\
    max_hours_dict Examples.req_same_name !! "Bob" = Some 4.
Proof.
  eexists.
  exists {| teacher := "Bob"; teacherId := "i1";
            slots := Examples.all_four_slots; maxHours := 2 |}.
  split; [vm_compute; reflexivity |]. split.
  { exists [], [ {| teacher := "Bob"; teacherId := "i2";
                    slots := Examples.all_four_slots; maxHours := 4 |} ].
    split; [reflexivity |]. split; [reflexivity |].
    intros b [<- | []]. discriminate. }
  split; [reflexivity |]. split.
  { intros e [<- | [<- | []]]; repeat split; reflexivity. }
  split; [reflexivity |]. split; reflexivity.
Qed.

(** ** Partition by slot *)

Lemma add_to_slot_keys d g :
  NoDup (map fst d) -> NoDup (map fst (add_to_slot d g)).
Proof. apply assoc_set_NoDup. Qed.

Lemma assoc_set_Forall {K V : Type} `{EqDecision K} (P : K * V -> Prop) k v
    (d : list (K * V)) :
  List.Forall P d -> P (k, v) -> List.Forall P (assoc_set k v d).
Proof.
  intros Hd Hkv. induction d as [|[k' v'] d IH]; simpl.
  - by constructor.
  - apply List.Forall_cons_iff in Hd as [Hk' Hd].
    destruct (decide (k = k')) as [<- | Hne]; constructor; auto.
Qed.

Lemma add_to_slot_members d g :
  List.Forall (fun item => forall g', In g' (snd item) -> slot_of g' = fst item) d ->
  List.Forall (fun item => forall g', In g' (snd item) -> slot_of g' = fst item)
              (add_to_slot d g).
Proof.
  intros Hd. apply assoc_set_Forall; [done |]. simpl. intros g' Hg'.
  apply in_app_or in Hg' as [Hg' | [<- | []]]; [| done].
  destruct (assoc_get (slot_of g) d) as [gs |] eqn:Hget; [| by destruct Hg'].
  apply assoc_get_In in Hget. rewrite List.Forall_forall in Hd.
  by apply (Hd _ Hget).
Qed.

Lemma add_to_slot_Permutation d g :
  flat_map snd (add_to_slot d g) ≡ₚ flat_map snd d ++ [g].
Proof.
  unfold add_to_slot. induction d as [|[k' gs'] d IH]; simpl; [done |].
  destruct (decide (slot_of g = k')) as [Heq | Hne]; simpl.
  - by rewrite <- !app_assoc, (Permutation_app_comm [g]).
  - by rewrite IH, app_assoc.
Qed.

Lemma slot_to_groups_fold gs d :
  NoDup (map fst d) ->
  List.Forall (fun item => forall g', In g' (snd item) -> slot_of g' = fst item) d ->
  NoDup (map fst (fold_left add_to_slot gs d)) /\
  List.Forall (fun item => forall g', In g' (snd item) -> slot_of g' = fst item)
              (fold_left add_to_slot gs d) /\
  flat_map snd (fold_left add_to_slot gs d) ≡ₚ flat_map snd d ++ gs.
Proof.
  revert d. induction gs as [|g gs IH]; intros d Hkeys Hmem; simpl.
  - by rewrite app_nil_r.
  - destruct (IH (add_to_slot d g)) as (Hk & Hm & Hp);
      [by apply add_to_slot_keys | by apply add_to_slot_members |].
    split; [done |]. split; [done |].
    rewrite Hp, add_to_slot_Permutation, <- app_assoc. done.
Qed.

(** The slots are pairwise distinct, every group sits under its own slot, and
    the groups of all slots together are the input groups, each once. *)
Lemma slot_to_groups_spec request :
  NoDup (map fst (slot_to_groups request)) /\
  (forall k gs g, In (k, gs) (slot_to_groups request) -> In g gs -> slot_of g = k) /\
  flat_map snd (slot_to_groups request) ≡ₚ scheduled_groups request.
Proof.
  destruct (slot_to_groups_fold (scheduled_groups request) []) as (Hk & Hm & Hp);
    [apply NoDup_nil_2 | constructor |].
  split; [done |]. split; [| done].
  intros k gs g Hin Hg. rewrite List.Forall_forall in Hm. by apply (Hm _ Hin).
Qed.

(** ** The room model of one slot *)

Lemma compatible_spec g r :
  compatible g r = true <->
  capacity r >= students_count g /\ course_type r = sg_type g.
Proof.
  unfold compatible. rewrite andb_true_iff, Z.geb_le, Z.eqb_eq. lia.
Qed.

Lemma room_model_facts gs rs :
  let st := declare_all (room_keys gs rs) (new_model, ∅) in
  let m := fst (room_model gs rs) in
  let y := snd (room_model gs rs) in
  y = snd st /\
  num_vars m = num_vars (fst st) /\
  (forall g, In g gs -> In (one_room_ct rs y g) (constraints m)) /\
  (forall r, In r rs -> In (one_group_ct gs y r) (constraints m)).
Proof.
  intros st m y. subst m y. unfold room_model. rewrite declare_rooms_keys.
  fold st. destruct st as [m0 y]. simpl.
  split; [done |]. split; [apply add_room_constraints_extends |]. split.
  - intros g Hg. by apply In_one_room.
  - intros r Hr. by apply In_one_group.
Qed.

(** Infeasible pairs are not modelled: [y] has a variable for a pair of ids
    exactly when a group of the slot and a room with these ids are
    compatible. *)
Lemma room_var_declared gs rs gid rid :
  is_Some (snd (room_model gs rs) !! (gid, rid)) <->
  exists g r, In g gs /\ In r rs /\ sg_id g = gid /\ room_id r = rid /\
              compatible g r = true.
Proof.
  destruct (room_model_facts gs rs) as (-> & _).
  rewrite declare_all_dom, <- in_room_keys. simpl.
  rewrite lookup_empty. split; [intros [[? [=]] | ?]; done | by right].
Qed.

Lemma eval_flat_map_nonneg {A : Type} sol (T : A -> list (Z * var)) (l : list A) :
  (forall a, In a l -> 0 <= eval sol (T a)) -> 0 <= eval sol (flat_map T l).
Proof.
  induction l as [|a l IH]; intros Hnn; simpl; [done |].
  rewrite eval_app. specialize (Hnn a (or_introl eq_refl)) as Ha.
  assert (0 <= eval sol (flat_map T l)) by (apply IH; intros b Hb; apply Hnn; by right).
  lia.
Qed.

Lemma eval_flat_map_In {A : Type} sol (T : A -> list (Z * var)) (l : list A) a :
  (forall a, In a l -> 0 <= eval sol (T a)) -> In a l ->
  eval sol (T a) <= eval sol (flat_map T l).
Proof.
  induction l as [|b l IH]; intros Hnn Ha; simpl; [done |].
  rewrite eval_app.
  assert (0 <= eval sol (flat_map T l))
    by (apply eval_flat_map_nonneg; intros c Hc; apply Hnn; by right).
  destruct Ha as [-> | Ha]; [lia |].
  specialize (Hnn b (or_introl eq_refl)) as Hb.
  assert (eval sol (T a) <= eval sol (flat_map T l))
    by (apply IH; [intros c Hc; apply Hnn; by right | done]).
  lia.
Qed.

Lemma eval_flat_map_two {A : Type} sol (T : A -> list (Z * var)) (l : list A) a b :
  (forall a, In a l -> 0 <= eval sol (T a)) -> In a l -> In b l -> a <> b ->
  eval sol (T a) + eval sol (T b) <= eval sol (flat_map T l).
Proof.
  induction l as [|c l IH]; intros Hnn Ha Hb Hab; simpl; [done |].
  rewrite eval_app.
  assert (forall a, In a l -> 0 <= eval sol (T a)) as Hnn'
    by (intros d Hd; apply Hnn; by right).
  specialize (Hnn c (or_introl eq_refl)) as Hc.
  destruct Ha as [-> | Ha], Hb as [-> | Hb]; try done.
  - pose proof (eval_flat_map_In sol T l b Hnn' Hb). lia.
  - pose proof (eval_flat_map_In sol T l a Hnn' Ha). lia.
  - pose proof (IH Hnn' Ha Hb Hab). lia.
Qed.

Section SolvedSlot.
Variable gs : list ScheduledGroup.
Variable rs : list Room.
Variable sol : assignment.
Hypothesis Hsat : satisfies sol (fst (room_model gs rs)).

Let y := snd (room_model gs rs).

Lemma room_var_binary k v : y !! k = Some v -> sol v = 0 \/ sol v = 1.
Proof.
  intros Hv. destruct Hsat as [Hbin _]. apply Hbin.
  destruct (room_model_facts gs rs) as (Hy & -> & _). subst y. rewrite Hy in Hv.
  by apply (declare_all_bounded _ _ bounded_new _ _ Hv).
Qed.

Lemma yterm_binary g r : eval sol (yterm y g r) = 0 \/ eval sol (yterm y g r) = 1.
Proof.
  unfold yterm. destruct (y !! _) as [v |] eqn:Hv; simpl; [| by left].
  destruct (room_var_binary _ _ Hv) as [-> | ->]; auto.
Qed.

Lemma yterm_nonneg g r : 0 <= eval sol (yterm y g r).
Proof. destruct (yterm_binary g r) as [-> | ->]; lia. Qed.

Lemma yterm_one g r v :
  y !! (sg_id g, room_id r) = Some v -> sol v = 1 -> eval sol (yterm y g r) = 1.
Proof. intros Hv H1. unfold yterm. rewrite Hv. simpl. lia. Qed.

Lemma next_room_Some g (rs' : list Room) assigned_room :
  next_room y sol g rs' = Some assigned_room ->
  exists r v, In r rs' /\ room_id r = assigned_room /\
              y !! (sg_id g, room_id r) = Some v /\ sol v = 1.
Proof.
  induction rs' as [|r rs' IH]; simpl; [done |].
  destruct (y !! (sg_id g, room_id r)) as [v |] eqn:Hv.
  - destruct (Z.eqb_spec (sol v) 1) as [H1 | _].
    + intros [= <-]. exists r, v. auto.
    + intros Hnext. destruct (IH Hnext) as (r' & v' & ? & ? & ? & ?).
      exists r', v'. auto.
  - intros Hnext. destruct (IH Hnext) as (r' & v' & ? & ? & ? & ?).
    exists r', v'. auto.
Qed.

Lemma next_room_None g (rs' : list Room) :
  next_room y sol g rs' = None -> eval sol (flat_map (yterm y g) rs') = 0.
Proof.
  induction rs' as [|r rs' IH]; simpl; [done |]. rewrite eval_app. unfold yterm at 1.
  destruct (y !! (sg_id g, room_id r)) as [v |] eqn:Hv; simpl.
  - destruct (Z.eqb_spec (sol v) 1) as [H1 | Hn1]; [done |].
    intros Hnext. rewrite (IH Hnext).
    destruct (room_var_binary _ _ Hv); lia.
  - intros Hnext. by rewrite (IH Hnext).
Qed.

(** With a satisfying assignment the generator is never exhausted. *)
Lemma next_room_total g : In g gs -> is_Some (next_room y sol g rs).
Proof.
  intros Hg. destruct (next_room y sol g rs) eqn:Hnext; [eauto |].
  apply next_room_None in Hnext.
  destruct (room_model_facts gs rs) as (_ & _ & Hct & _).
  destruct Hsat as [_ Hall]. rewrite List.Forall_forall in Hall.
  specialize (Hall _ (Hct g Hg)). unfold holds in Hall. simpl in Hall.
  fold y in Hall. lia.
Qed.

Lemma one_group_holds r :
  In r rs -> eval sol (flat_map (fun g => yterm y g r) gs) <= 1.
Proof.
  intros Hr. destruct (room_model_facts gs rs) as (_ & _ & _ & Hct).
  destruct Hsat as [_ Hall]. rewrite List.Forall_forall in Hall.
  exact (Hall _ (Hct r Hr)).
Qed.

(** The room a group is given is compatible with the group. *)
Lemma assigned_room_compatible g assigned_room :
  In g gs -> next_room y sol g rs = Some assigned_room ->
  exists r, In r rs /\ room_id r = assigned_room /\ compatible g r = true.
Proof.
  intros Hg Hnext.
  apply next_room_Some in Hnext as (r & v & Hr & <- & Hv & H1).
  destruct (proj1 (room_var_declared gs rs (sg_id g) (room_id r)))
    as (g' & r' & Hg' & Hr' & Hid & Hrid & Hcompat); [by exists v |].
  exists r'. split; [done |]. split; [done |].
  destruct (decide (g' = g)) as [<- | Hne]; [done |].
  assert (eval sol (yterm y g' r) + eval sol (yterm y g r) <= 1) as Hle.
  { etransitivity; [| by apply (one_group_holds r)].
    apply (eval_flat_map_two sol (fun g => yterm y g r)); [| done | done | done].
    intros g'' _. apply yterm_nonneg. }
  rewrite (yterm_one g r v Hv H1) in Hle.
  rewrite (yterm_one g' r v) in Hle by (by rewrite ?Hid). lia.
Qed.
(** The id of the room a group is given names one room of the request. *)
Lemma assigned_room_unique g assigned_room r1 r2 :
  In g gs -> next_room y sol g rs = Some assigned_room ->
  In r1 rs -> In r2 rs -> room_id r1 = assigned_room -> room_id r2 = assigned_room ->
  r1 = r2.
Proof.
  intros Hg Hnext Hr1 Hr2 Hid1 Hid2.
  destruct (decide (r1 = r2)) as [| Hne]; [done |].
  apply next_room_Some in Hnext as (r & v & _ & Hid & Hv & H1).
  destruct (room_model_facts gs rs) as (_ & _ & Hct & _).
  pose proof Hsat as [_ Hall]. rewrite List.Forall_forall in Hall.
  specialize (Hall _ (Hct g Hg)). unfold holds in Hall. simpl in Hall. fold y in Hall.
  assert (eval sol (yterm y g r1) + eval sol (yterm y g r2) <= 1) as Hle.
  { rewrite <- Hall. apply (eval_flat_map_two sol (yterm y g)); try done.
    intros r' _. apply yterm_nonneg. }
  rewrite (yterm_one g r1 v) in Hle by (by rewrite ?Hid1, <- ?Hid).
  rewrite (yterm_one g r2 v) in Hle by (by rewrite ?Hid2, <- ?Hid). lia.
Qed.

Lemma Forall2_In_r {A B : Type} (R : A -> B -> Prop) (l : list A) (k : list B) b :
  Forall2 R l k -> In b k -> exists a, In a l /\ R a b.
Proof.
  induction 1 as [|a b' l k Hab _ IH]; intros Hb; [done |].
  destruct Hb as [<- | Hb].
  - exists a. split; [by left | done].
  - destruct (IH Hb) as (a' & Ha' & HR). exists a'. split; [by right | done].
Qed.

(** Within a solved slot no two groups are given the same room. *)
Lemma block_bookings_NoDup pre suf block :
  gs = pre ++ suf -> Forall2 (assigned y sol rs) suf block ->
  NoDup (map booking block).
Proof.
  intros Hgs Hblock. revert pre Hgs.
  induction Hblock as [|g e suf' block' Hge Hblock IH]; intros pre Hgs; simpl.
  - apply NoDup_nil_2.
  - apply NoDup_cons. split; [| apply (IH (pre ++ [g])); by rewrite <- app_assoc].
    rewrite list_elem_of_In, in_map_iff. intros (e' & Hsame & He').
    destruct (Forall2_In_r _ _ _ _ Hblock He') as (g' & Hg' & R' & Hnext' & ->).
    destruct Hge as (R & Hnext & ->).
    injection Hsame as _ HR. subst R'.
    apply next_room_Some in Hnext as (r & v & Hr & <- & Hv & H1).
    apply next_room_Some in Hnext' as (r' & v' & _ & Hrid & Hv' & H1').
    rewrite Hrid in Hv'.
    pose proof (one_group_holds r Hr) as Hle.
    rewrite Hgs, flat_map_app, eval_app in Hle. simpl in Hle. rewrite eval_app in Hle.
    rewrite (yterm_one g r v Hv H1) in Hle.
    assert (0 <= eval sol (flat_map (fun g => yterm y g r) pre))
      by (apply eval_flat_map_nonneg; intros; apply yterm_nonneg).
    assert (eval sol (yterm y g' r) <= eval sol (flat_map (fun g => yterm y g r) suf'))
      by (apply (eval_flat_map_In sol (fun g => yterm y g r));
          [intros; apply yterm_nonneg | done]).
    rewrite (yterm_one g' r v' Hv' H1') in *. lia.
Qed.
End SolvedSlot.

(** In a slot whose model is satisfied no two groups share an id: the
    variable of the shared id and of the room given to one of them would
    count twice in the room's at-most-one constraint. *)
Lemma slot_ids_NoDup gs rs sol :
  satisfies sol (fst (room_model gs rs)) ->
  forall pre suf, gs = pre ++ suf -> NoDup (map sg_id suf).
Proof.
  intros Hsat pre suf. revert pre.
  induction suf as [|g suf IH]; intros pre Hgs; simpl; [apply NoDup_nil_2 |].
  apply NoDup_cons. split; [| apply (IH (pre ++ [g])); by rewrite <- app_assoc].
  rewrite list_elem_of_In, in_map_iff. intros (g' & Hid & Hg').
  assert (In g gs) as Hg by (rewrite Hgs; apply in_or_app; right; by left).
  destruct (next_room_total gs rs sol Hsat g Hg) as [assigned_room Hnext].
  apply next_room_Some in Hnext as (r & v & Hr & _ & Hv & H1).
  pose proof (one_group_holds gs rs sol Hsat r Hr) as Hle.
  pose proof (yterm_one gs rs sol g r v Hv H1) as Hone.
  assert (eval sol (yterm (snd (room_model gs rs)) g' r) = 1) as Hone'
    by (apply (yterm_one gs rs sol g' r v); by rewrite ?Hid).
  assert (forall g'', 0 <= eval sol (yterm (snd (room_model gs rs)) g'' r)) as Hnn
    by (intros; by apply yterm_nonneg).
  set (y := snd (room_model gs rs)) in *.
  rewrite Hgs, flat_map_app, eval_app in Hle. simpl in Hle. rewrite eval_app in Hle.
  assert (0 <= eval sol (flat_map (fun g => yterm y g r) pre))
    by (apply eval_flat_map_nonneg; intros; apply Hnn).
  assert (eval sol (yterm y g' r) <= eval sol (flat_map (fun g => yterm y g r) suf))
    by (apply (eval_flat_map_In sol (fun g => yterm y g r)); [intros; apply Hnn | done]).
  lia.
Qed.

Lemma NoDup_map_In_inj {A B : Type} (f : A -> B) (l : list A) a b :
  NoDup (map f l) -> In a l -> In b l -> f a = f b -> a = b.
Proof.
  induction l as [|c l IH]; intros Hnd Ha Hb Hab; [done |].
  cbn [map] in Hnd. apply NoDup_cons in Hnd as [Hc Hnd].
  destruct Ha as [-> | Ha], Hb as [-> | Hb]; [done | | | by apply IH].
  - destruct Hc. rewrite Hab. apply list_elem_of_In. by apply in_map.
  - destruct Hc. rewrite <- Hab. apply list_elem_of_In. by apply in_map.
Qed.

(** The number of variables of a slot's model is the number of compatible
    pairs of a group of the slot and a room. *)
Lemma room_keys_length gs rs :
  length (room_keys gs rs) =
  length (flat_map (fun g =>
            filter (fun r => capacity r >= students_count g /\ course_type r = sg_type g)
                   rs) gs).
Proof.
  unfold room_keys. induction gs as [|g gs IH]; simpl; [done |].
  rewrite !length_app, IH. f_equal. clear IH.
  induction rs as [|r rs IHr]; simpl; [done |].
  rewrite length_app, IHr, filter_cons.
  destruct (compatible g r) eqn:Hcompat.
  - rewrite decide_True by (by apply compatible_spec). done.
  - rewrite decide_False; [done |].
    rewrite <- compatible_spec. by rewrite Hcompat.
Qed.

(** With pairwise distinct room ids, and pairwise distinct group ids in the
    slot, the exactly-one-room sum of a group has one term for each room that
    is compatible with the group, and no other. *)
Lemma one_room_terms gs rs g :
  NoDup (map sg_id gs) -> NoDup (map room_id rs) -> In g gs ->
  lhs (one_room_ct rs (snd (room_model gs rs)) g) =
  map (fun r => (1, snd (room_model gs rs) !!! (sg_id g, room_id r)))
      (filter (fun r => capacity r >= students_count g /\ course_type r = sg_type g) rs).
Proof.
  intros Hgids Hrids Hg. simpl.
  assert (forall rs', (forall r, In r rs' -> In r rs) ->
            flat_map (yterm (snd (room_model gs rs)) g) rs' =
            map (fun r => (1, snd (room_model gs rs) !!! (sg_id g, room_id r)))
                (filter (fun r => capacity r >= students_count g /\
                                  course_type r = sg_type g) rs')) as Hterms.
  { induction rs' as [|r rs' IH]; intros Hsub; [done |].
    cbn [flat_map]. rewrite filter_cons, IH by (intros r' Hr'; apply Hsub; by right).
    unfold yterm.
    destruct (snd (room_model gs rs) !! (sg_id g, room_id r)) as [v |] eqn:Hv.
    - destruct (proj1 (room_var_declared gs rs (sg_id g) (room_id r)))
        as (g' & r' & Hg' & Hr' & Hgid & Hrid & Hcompat); [by exists v |].
      assert (g' = g) as -> by (by apply (NoDup_map_In_inj sg_id gs)).
      assert (r' = r) as ->
        by (apply (NoDup_map_In_inj room_id rs); [done | done | | done];
            apply Hsub; by left).
      apply compatible_spec in Hcompat. rewrite decide_True by done.
      cbn [map app]. by rewrite (lookup_total_correct _ _ _ Hv).
    - rewrite decide_False; [done |]. intros Hcompat.
      apply compatible_spec in Hcompat.
      destruct (proj2 (room_var_declared gs rs (sg_id g) (room_id r))) as [v Hv'].
      + exists g, r. split; [done |]. split; [apply Hsub; by left | done].
      + congruence. }
  by apply Hterms.
Qed.


(** ** Shape of a successful [distribute_groups] *)

Lemma collect_rooms_Return y sol rs gs acc out :
  collect_rooms y sol rs gs acc = Return out ->
  exists block, out = acc ++ block /\ Forall2 (assigned y sol rs) gs block.
Proof.
  revert acc. induction gs as [|g gs IH]; intros acc; simpl.
  - intros [= <-]. exists []. by rewrite app_nil_r.
  - destruct (next_room y sol g rs) as [assigned_room |] eqn:Hnext; [| done].
    intros Hrest. destruct (IH _ Hrest) as (block & -> & Hblock).
    exists (distributed_entry g assigned_room :: block).
    split; [by rewrite <- app_assoc |]. constructor; [| done].
    by exists assigned_room.
Qed.

Lemma distribute_slots_Return Solve rs items acc out :
  distribute_slots Solve rs items acc = Return out ->
  exists blocks, out = acc ++ concat blocks /\
                 Forall2 (slot_block Solve rs) items blocks.
Proof.
  revert acc. induction items as [|[[day time] gs] items IH]; intros acc; simpl.
  - intros [= <-]. exists []. by rewrite app_nil_r.
  - destruct (room_model gs rs) as [m y] eqn:Hmodel.
    destruct (Solve m) as [sol |] eqn:Hsol; [| done].
    unfold mbind, result_bind.
    destruct (collect_rooms y sol rs gs acc) as [acc' | | |] eqn:Hcollect; try done.
    intros Hrest. destruct (IH _ Hrest) as (blocks & -> & Hblocks).
    apply collect_rooms_Return in Hcollect as (block & -> & Hblock).
    exists (block :: blocks). split; [by rewrite <- app_assoc |].
    constructor; [| done]. exists sol. simpl. rewrite Hmodel. simpl. done.
Qed.

Lemma Forall2_impl_In {A B : Type} (R Q : A -> B -> Prop) (l : list A) (k : list B) :
  Forall2 R l k -> (forall a b, In a l -> R a b -> Q a b) -> Forall2 Q l k.
Proof.
  induction 1 as [|a b l k Hab _ IH]; intros HRQ; constructor.
  - apply HRQ; [by left | done].
  - apply IH. intros a' b' Ha'. apply HRQ. by right.
Qed.

Lemma Forall2_flat {A B C : Type} (Q : B -> C -> Prop) (items : list (A * list B))
    (blocks : list (list C)) :
  Forall2 (fun item block => Forall2 Q (snd item) block) items blocks ->
  Forall2 Q (flat_map snd items) (concat blocks).
Proof.
  induction 1 as [|item block items blocks Hblock _ IH]; simpl; [constructor |].
  by apply Forall2_app.
Qed.

Lemma collect_rooms_total gs rs sol :
  satisfies sol (fst (room_model gs rs)) ->
  forall gs' acc, (forall g, In g gs' -> In g gs) ->
    exists out, collect_rooms (snd (room_model gs rs)) sol rs gs' acc = Return out.
Proof.
  intros Hsat. induction gs' as [|g gs' IH]; intros acc Hsub; simpl; [eauto |].
  destruct (next_room_total gs rs sol Hsat g) as [assigned_room ->]; [apply Hsub; by left |].
  apply IH. intros g' Hg'. apply Hsub. by right.
Qed.

Lemma block_slot Solve rs item block e :
  slot_block Solve rs item block ->
  (forall g, In g (snd item) -> slot_of g = fst item) ->
  In e block -> fst (booking e) = Some (fst item).
Proof.
  intros (sol & _ & Hblock) Hmem He.
  destruct (Forall2_In_r _ _ _ _ Hblock He) as (g & Hg & R & _ & ->).
  simpl. f_equal. by apply Hmem.
Qed.

Section Distribution.
Variable Solve : CpModel -> option assignment.
Hypothesis Solve_sound : sound Solve.

Lemma distribute_slots_fails rs items acc :
  (exists k gs, In (k, gs) items /\ Solve (fst (room_model gs rs)) = None) ->
  exists solved day time gs rest,
    items = solved ++ ((day, time), gs) :: rest /\
    (forall k' gs', In (k', gs') solved -> is_Some (Solve (fst (room_model gs' rs)))) /\
    Solve (fst (room_model gs rs)) = None /\
    distribute_slots Solve rs items acc = HTTPException (NoFeasibleRoomAssignment day time).
Proof.
  revert acc. induction items as [|[[day time] gs] items IH]; intros acc.
  - intros (k & gs & [] & _).
  - intros Hfail. simpl.
    destruct (Solve (fst (room_model gs rs))) as [sol |] eqn:Hsol.
    + destruct (collect_rooms_total gs rs sol (Solve_sound _ _ Hsol) gs acc)
        as [acc' Hcollect]; [done |].
      destruct (IH acc') as (solved & day' & time' & gs' & rest & -> & Hsolved & Hnone & Hres).
      { destruct Hfail as (k & gs' & [[= <- <-] | Hin] & Hnone); [congruence | eauto]. }
      exists ((day, time, gs) :: solved), day', time', gs', rest.
      split; [done |]. split; [| split; [done |]].
      * intros k' gs'' [[= <- <-] | Hin]; [by rewrite Hsol | by apply (Hsolved k')].
      * destruct (room_model gs rs) as [m y]. simpl in *. rewrite Hsol.
        unfold mbind, result_bind. by rewrite Hcollect.
    + exists [], day, time, gs, items. split; [done |]. split; [by intros ? ? [] |].
      split; [done |].
      destruct (room_model gs rs) as [m y]. simpl in *. by rewrite Hsol.
Qed.

(** When the solver answers for every slot the handler returns. *)
Lemma distribute_slots_returns rs items acc :
  (forall k gs, In (k, gs) items -> is_Some (Solve (fst (room_model gs rs)))) ->
  exists out, distribute_slots Solve rs items acc = Return out.
Proof.
  revert acc. induction items as [|[[day time] gs] items IH]; intros acc Hall; simpl.
  - eauto.
  - destruct (Hall (day, time) gs (or_introl eq_refl)) as [sol Hsol].
    destruct (collect_rooms_total gs rs sol (Solve_sound _ _ Hsol) gs acc)
      as [acc' Hcollect]; [done |].
    destruct (room_model gs rs) as [m y]. simpl in *. rewrite Hsol.
    unfold mbind, result_bind. rewrite Hcollect.
    apply IH. intros k gs' Hin. apply (Hall k). by right.
Qed.

(** C8. With a solver whose answers satisfy the model they are for: if the
    solver gives no assignment for the model of some slot, the request fails
    with the no-feasible-room error that names the day and time of the first
    slot, in the order of the slots, whose model the solver could not
    satisfy; the handler returns no distribution, so the entries collected
    for the slots solved before that one are not returned. *)
Theorem C8_infeasible_slot_fails_request request :
  (exists k gs, In (k, gs) (slot_to_groups request) /\
                Solve (fst (room_model gs (rooms request))) = None) ->
  exists solved day time gs rest,
    slot_to_groups request = solved ++ ((day, time), gs) :: rest /\
    (forall k' gs', In (k', gs') solved ->
                    is_Some (Solve (fst (room_model gs' (rooms request))))) /\
    Solve (fst (room_model gs (rooms request))) = None /\
    distribute_groups Solve request =
      HTTPException (NoFeasibleRoomAssignment day time) /\
    (forall out, distribute_groups Solve request <> Return out).
Proof.
  intros Hfail. unfold distribute_groups.
  destruct (distribute_slots_fails (rooms request) (slot_to_groups request) [] Hfail)
    as (solved & day & time & gs & rest & Hitems & Hsolved & Hnone & Hres).
  exists solved, day, time, gs, rest. rewrite Hres. repeat split; done.
Qed.

Lemma blocks_bookings_NoDup rs items blocks :
  Forall2 (slot_block Solve rs) items blocks ->
  NoDup (map fst items) ->
  (forall item, In item items -> forall g, In g (snd item) -> slot_of g = fst item) ->
  NoDup (map booking (concat blocks)).
Proof.
  induction 1 as [|item block items blocks Hblock Hblocks IH];
    intros Hkeys Hmem; simpl; [apply NoDup_nil_2 |].
  cbn [map] in Hkeys. apply NoDup_cons in Hkeys as [Hk Hkeys].
  rewrite map_app. apply NoDup_app. split; [| split].
  - destruct Hblock as (sol & Hsol & Hblock).
    apply (block_bookings_NoDup (snd item) rs sol
             (Solve_sound _ _ Hsol) [] (snd item)); done.
  - intros b Hb Hb'. apply list_elem_of_In, in_map_iff in Hb as (e & <- & He).
    apply list_elem_of_In, in_map_iff in Hb' as (e' & Hsame & He').
    apply in_concat in He' as (block' & Hblock' & He').
    destruct (Forall2_In_r _ _ _ _ Hblocks Hblock') as (item' & Hitem' & Hsb).
    pose proof (block_slot _ _ _ _ _ Hblock (Hmem item (or_introl eq_refl)) He) as Hs.
    pose proof (block_slot _ _ _ _ _ Hsb (Hmem item' (or_intror Hitem')) He') as Hs'.
    rewrite Hsame, Hs in Hs'. injection Hs' as Heq.
    apply Hk. rewrite Heq. apply list_elem_of_In. by apply in_map.
  - apply IH; [done |]. intros item' Hitem'. apply Hmem. by right.
Qed.

Variable request : DistributeGroupsRequest.
Variable out : list pydict.
Hypothesis Hreturn : distribute_groups Solve request = Return out.

Lemma returned_blocks :
  exists blocks, out = concat blocks /\
                 Forall2 (slot_block Solve (rooms request)) (slot_to_groups request) blocks.
Proof. by apply distribute_slots_Return in Hreturn. Qed.

(** C3, as the code has it.  When [distribute_groups] returns, with a
    solver whose answers satisfy the model they are for, its entries are, one
    for one and in order, the input groups taken slot by slot, and these are
    the input groups, each once (a permutation of the request's list).  The
    entry of a group has the group's [id], [slot], [students_count] (as
    [number_size]) and [type], and its [roomId] is the id of a room of the
    request whose capacity is at least the group's [students_count] and whose
    [course_type] is the group's [type]; no other room of the request has that
    id.  In the model of a slot there are as many variables as there are
    compatible pairs of a group of the slot and a room; a variable is kept
    under the pair of ids of a group and a room exactly when some group of the
    slot and some room with these ids are compatible; the exactly-one-room
    constraint of every group is in the model, and, when the room ids of the
    request are pairwise distinct, its sum has one term for each room
    compatible with the group and no other term. *)
Theorem C3_every_group_gets_a_compatible_room :
  Forall2 (fun g e =>
             exists r, In r (rooms request) /\
                       capacity r >= students_count g /\ course_type r = sg_type g /\
                       e = [ ("id", VStr (sg_id g));
                             ("slot", VSlot (slot g));
                             ("number_size", VInt (students_count g));
                             ("type", VInt (sg_type g));
                             ("roomId", VStr (room_id r)) ] /\
                       forall r', In r' (rooms request) -> room_id r' = room_id r -> r' = r)
          (flat_map snd (slot_to_groups request)) out /\
  flat_map snd (slot_to_groups request) ≡ₚ scheduled_groups request /\
  (forall k gs, In (k, gs) (slot_to_groups request) ->
     let m := fst (room_model gs (rooms request)) in
     let y := snd (room_model gs (rooms request)) in
     num_vars m =
       length (flat_map (fun g =>
                 filter (fun r => capacity r >= students_count g /\
                                  course_type r = sg_type g) (rooms request)) gs) /\
     (forall gid rid,
        is_Some (y !! (gid, rid)) <->
        exists g r, In g gs /\ In r (rooms request) /\
                    sg_id g = gid /\ room_id r = rid /\
                    capacity r >= students_count g /\ course_type r = sg_type g) /\
     (forall g, In g gs ->
        In (one_room_ct (rooms request) y g) (constraints m) /\
        (NoDup (map room_id (rooms request)) ->
         lhs (one_room_ct (rooms request) y g) =
         map (fun r => (1, y !!! (sg_id g, room_id r)))
             (filter (fun r => capacity r >= students_count g /\
                               course_type r = sg_type g) (rooms request))))).
Proof.
  destruct returned_blocks as (blocks & -> & Hblocks).
  destruct (slot_to_groups_spec request) as (_ & _ & Hperm).
  split; [| split; [exact Hperm |]].
  - apply Forall2_flat. eapply Forall2_impl; [exact Hblocks |].
    intros [k gs] block (sol & Hsol & Hblock). simpl in *.
    apply Solve_sound in Hsol.
    eapply Forall2_impl_In; [exact Hblock |].
    intros g e Hg (assigned_room & Hnext & ->).
    destruct (assigned_room_compatible gs (rooms request) sol Hsol g _ Hg Hnext)
      as (r & Hr & <- & Hcompat).
    apply compatible_spec in Hcompat as [Hcap Hty]. exists r.
    repeat (split; [done |]). intros r' Hr' Hid.
    by apply (assigned_room_unique gs (rooms request) sol Hsol g _ r' r Hg Hnext).
  - intros k gs Hin m y. split; [| split].
    + destruct (room_model_facts gs (rooms request)) as (_ & Hn & _).
      subst m. rewrite Hn, declare_all_num_vars. simpl. apply room_keys_length.
    + intros gid rid. subst y. rewrite room_var_declared.
      split; intros (g & r & Hg & Hr & Hgid & Hrid & Hcompat);
        exists g, r; repeat (split; [done |]); by apply compatible_spec.
    + intros g Hg. split.
      * destruct (room_model_facts gs (rooms request)) as (_ & _ & Hct & _).
        by apply Hct.
      * intros Hrids. apply list_elem_of_In, list_elem_of_lookup_1 in Hin as [n Hn].
        destruct (Forall2_lookup_l _ _ _ _ _ Hblocks Hn) as (block & _ & sol & Hsol & _).
        simpl in Hsol. apply Solve_sound in Hsol.
        apply one_room_terms; [| done | done].
        by apply (slot_ids_NoDup gs (rooms request) sol Hsol []).
Qed.

Lemma bookings_NoDup : NoDup (map booking out).
Proof.
  destruct returned_blocks as (blocks & -> & Hblocks).
  destruct (slot_to_groups_spec request) as (Hkeys & Hmem & _).
  apply (blocks_bookings_NoDup (rooms request) (slot_to_groups request)); try done.
  intros [k gs] Hin g Hg. by apply (Hmem k gs).
Qed.

(** C4. In a distribution returned with a solver whose answers satisfy the
    model they are for, two entries at different positions whose [slot]
    fields have the same [dayId] and [timeId] have different [roomId] fields;
    and the model of every slot holds, for every room of the request, the
    constraint that the sum of the room's variables over the groups of the
    slot is at most 1. *)
Theorem C4_no_room_shared_within_a_slot :
  (forall i j e1 e2 s1 s2,
     i <> j -> out !! i = Some e1 -> out !! j = Some e2 ->
     dict_get "slot" e1 = Some (VSlot s1) -> dict_get "slot" e2 = Some (VSlot s2) ->
     dayId s1 = dayId s2 -> timeId s1 = timeId s2 ->
     dict_get "roomId" e1 <> dict_get "roomId" e2) /\
  (forall k gs r, In (k, gs) (slot_to_groups request) -> In r (rooms request) ->
     In (one_group_ct gs (snd (room_model gs (rooms request))) r)
        (constraints (fst (room_model gs (rooms request))))).
Proof.
  split.
  - intros i j e1 e2 s1 s2 Hij H1 H2 Hs1 Hs2 Hday Htime Hroom.
    apply Hij. pose proof bookings_NoDup as Hnd.
    change (map booking out) with (booking <$> out) in Hnd.
    apply (proj1 (NoDup_alt _) Hnd i j (booking e1)).
    + by rewrite list_lookup_fmap, H1.
    + rewrite list_lookup_fmap, H2. simpl. unfold booking.
      by rewrite Hs1, Hs2, Hday, Htime, Hroom.
  - intros k gs r _ Hr.
    destruct (room_model_facts gs (rooms request)) as (_ & _ & _ & Hct).
    by apply Hct.
Qed.

End Distribution.

(** C9, as the code has it.  Every entry of a returned distribution is
    built from one input group [g] and has exactly five fields: [id], [slot]
    and [type] with [g]'s values under their own names, [number_size] with
    [g]'s [students_count], and the added [roomId].  The group's [code] is
    not in the entry. *)
Theorem C9_entry_fields Solve request out e :
  distribute_groups Solve request = Return out ->
  In e out ->
  dict_keys e = ["id"; "slot"; "number_size"; "type"; "roomId"] /\
  exists g assigned_room,
    In g (scheduled_groups request) /\
    e = [ ("id", VStr (sg_id g));
          ("slot", VSlot (slot g));
          ("number_size", VInt (students_count g));
          ("type", VInt (sg_type g));
          ("roomId", VStr assigned_room) ].
Proof.
  intros Hreturn He.
  apply distribute_slots_Return in Hreturn as (blocks & -> & Hblocks). simpl in He.
  destruct (slot_to_groups_spec request) as (_ & _ & Hperm).
  apply in_concat in He as (block & Hblock & He).
  destruct (Forall2_In_r _ _ _ _ Hblocks Hblock) as ([k gs] & Hitem & sol & _ & Hgs).
  destruct (Forall2_In_r _ _ _ _ Hgs He) as (g & Hg & assigned_room & _ & ->).
  split; [reflexivity |]. exists g, assigned_room. split; [| done].
  apply (Permutation_in _ Hperm). apply in_flat_map. by exists (k, gs).
Qed.

Lemma C8_witness :
  exists solved day time gs rest,
    slot_to_groups Examples.req_no_room = solved ++ ((day, time), gs) :: rest /\
    (forall k' gs', In (k', gs') solved ->
       is_Some (brute_force (fst (room_model gs' (rooms Examples.req_no_room))))) /\
    brute_force (fst (room_model gs (rooms Examples.req_no_room))) = None /\
    distribute_groups brute_force Examples.req_no_room =
      HTTPException (NoFeasibleRoomAssignment day time) /\
    (forall out, distribute_groups brute_force Examples.req_no_room <> Return out).
Proof.
  apply (C8_infeasible_slot_fails_request brute_force brute_force_sound).
  exists ("d1", "t2"), [Examples.analysis_monday_late]. split.
  - right. left. vm_compute. reflexivity.
  - vm_compute. reflexivity.
Defined.

(** In that request the error names the second slot, "d1" at "t2". *)
Example no_room_for_analysis :
  distribute_groups brute_force Examples.req_no_room =
  HTTPException (NoFeasibleRoomAssignment "d1" "t2").
Proof. vm_compute. reflexivity. Qed.

Lemma C3_witness :
  Forall2 (fun g e =>
             exists r, In r (rooms Examples.req_two_groups) /\
                       capacity r >= students_count g /\ course_type r = sg_type g /\
                       e = [ ("id", VStr (sg_id g));
                             ("slot", VSlot (slot g));
                             ("number_size", VInt (students_count g));
                             ("type", VInt (sg_type g));
                             ("roomId", VStr (room_id r)) ] /\
                       forall r', In r' (rooms Examples.req_two_groups) ->
                                  room_id r' = room_id r -> r' = r)
          (flat_map snd (slot_to_groups Examples.req_two_groups))
          Examples.distribution_two_groups.
Proof.
  refine (proj1 (C3_every_group_gets_a_compatible_room brute_force brute_force_sound
                   Examples.req_two_groups Examples.distribution_two_groups _)).
  vm_compute. reflexivity.
Defined.

(** C3, as stated, fails on its second half when two rooms share an id.  In
    [req_shared_room_id] the request succeeds and the group "G1", with 40
    students, is given the auditorium "R3".  The storage room holds 10, so the
    pair of the group and the storage room fails the compatibility test; yet
    the storage room shares the id "R1" with the lecture hall, which is
    compatible, so the key [("G1", "R1")] is in [y] and the exactly-one-room
    sum of the group has a term for the storage room: the sum counts the
    variable of [("G1", "R1")] twice, once for each room with that id. *)
Lemma C3_counterexample :
  let request := Examples.req_shared_room_id in
  let y := snd (room_model [Examples.algebra_monday] (rooms request)) in
  distribute_groups brute_force request =
    Return [ [ ("id", VStr "G1");
               ("slot", VSlot (Examples.slot_at "d1" "t1"));
               ("number_size", VInt 40);
               ("type", VInt 0);
               ("roomId", VStr "R3") ] ] /\
  slot_to_groups request = [ (("d1", "t1"), [Examples.algebra_monday]) ] /\
  In Examples.storage_room (rooms request) /\
  capacity Examples.storage_room < students_count Examples.algebra_monday /\
  yterm y Examples.algebra_monday Examples.storage_room = [(1, 0%nat)] /\
  lhs (one_room_ct (rooms request) y Examples.algebra_monday) =
    [(1, 0%nat); (1, 0%nat); (1, 1%nat)].
Proof.
  cbv zeta. split; [vm_compute; reflexivity |]. split; [vm_compute; reflexivity |].
  split; [right; by left |]. split; [reflexivity |].
  split; vm_compute; reflexivity.
Qed.

Lemma C4_witness :
  dict_get "roomId" (distributed_entry Examples.algebra_monday "R1") <>
    dict_get "roomId" (distributed_entry Examples.logic_monday "R2") /\
  In (one_group_ct [Examples.algebra_monday; Examples.logic_monday]
        (snd (room_model [Examples.algebra_monday; Examples.logic_monday]
                         (rooms Examples.req_two_groups)))
        Examples.lecture_hall)
     (constraints (fst (room_model [Examples.algebra_monday; Examples.logic_monday]
                                   (rooms Examples.req_two_groups)))).
Proof.
  destruct (C4_no_room_shared_within_a_slot brute_force brute_force_sound
              Examples.req_two_groups Examples.distribution_two_groups)
    as [Hrooms Hct].
  - vm_compute. reflexivity.
  - split.
    + apply (Hrooms 0%nat 1%nat _ _ (Examples.slot_at "d1" "t1")
                    (Examples.slot_at "d1" "t1")); (done || reflexivity).
    + apply (Hct ("d1", "t1")); [left; vm_compute; reflexivity | by left].
Defined.

Lemma C9_witness :
  dict_keys (distributed_entry Examples.algebra_monday "R1") =
    ["id"; "slot"; "number_size"; "type"; "roomId"] /\
  exists g assigned_room,
    In g (scheduled_groups Examples.req_two_groups) /\
    distributed_entry Examples.algebra_monday "R1" =
      [ ("id", VStr (sg_id g));
        ("slot", VSlot (slot g));
        ("number_size", VInt (students_count g));
        ("type", VInt (sg_type g));
        ("roomId", VStr assigned_room) ].
Proof.
  apply (C9_entry_fields brute_force Examples.req_two_groups
                         Examples.distribution_two_groups).
  - vm_compute. reflexivity.
  - left. reflexivity.
Defined.

(** C9, as stated, fails: the entry returned for the group "G1" has no
    [code] field and no [students_count] field, though the input group has
    both; the student count is there under the name [number_size]. *)
Lemma C9_counterexample :
  distribute_groups brute_force Examples.req_two_groups =
    Return [ distributed_entry Examples.algebra_monday "R1";
             distributed_entry Examples.logic_monday "R2" ] /\
  dict_get "code" (scheduled_group_fields Examples.algebra_monday) =
    Some (VStr "MATH101") /\
  dict_get "code" (distributed_entry Examples.algebra_monday "R1") = None /\
  dict_get "students_count" (scheduled_group_fields Examples.algebra_monday) =
    Some (VInt 40) /\
  dict_get "students_count" (distributed_entry Examples.algebra_monday "R1") = None /\
  dict_get "number_size" (distributed_entry Examples.algebra_monday "R1") =
    Some (VInt 40).
Proof. vm_compute. repeat split. Qed.

(** * Further properties of the handlers *)

(** ** The other rules of the validation loop *)

(** X1. The loop appends the insufficient-slots message for instructor id
    [i] exactly when the request has an availability record with [teacherId]
    [i] and the last such record lists fewer slots than the raw total of the
    sessions of the groups with [instructorId] [i]; the message carries the
    record's teacher name, the total and the number of listed slots. *)
Theorem X1_insufficient_slots_iff request t i n k :
  In (InsufficientSlots t i n k) (validation_errors request) <->
  exists a, last_with teacherId i (availability request) a /\
            t = teacher a /\ n = total_sessions i (groups request) /\
            k = length (slots a) /\
            Z.of_nat (length (slots a)) < total_sessions i (groups request).
Proof.
  setoid_rewrite <- availability_map_last.
  rewrite in_validation_errors. split.
  - intros (j & Hj & Hv). unfold check_instructor in Hv.
    destruct (availability_map request !! j) as [a |] eqn:Ha.
    + destruct (rule1 a _) eqn:H1.
      * apply rule1_spec in H1.
        destruct (rule2 a _), (rule3 a _); simpl in Hv; in_cases Hv;
          injection Hv as <- <- <- <-; exists a; tauto.
      * destruct (rule2 a _), (rule3 a _); simpl in Hv; in_cases Hv.
    + simpl in Hv. in_cases Hv.
  - intros (a & Ha & -> & -> & -> & Hlt).
    assert (In i (map instructorId (groups request))) as Hi.
    { destruct (decide (In i (map instructorId (groups request)))) as [|Hn]; [done |].
      rewrite (total_sessions_absent _ _ Hn) in Hlt. lia. }
    exists i. split; [done |]. unfold check_instructor. rewrite Ha.
    assert (rule1 a (total_sessions i (groups request)) = true) as ->
      by (by apply rule1_spec).
    destruct (rule2 a _), (rule3 a _); simpl; tauto.
Qed.

(** X2. The loop appends the zero-hours message for instructor id [i]
    exactly when the request has an availability record with [teacherId] [i]
    and the last such record has max-hours 0 while the raw total of the
    sessions of the groups with [instructorId] [i] is positive; the message
    carries the record's teacher name and the total. *)
Theorem X2_zero_hour_budget_iff request t i n :
  In (ZeroHourBudget t i n) (validation_errors request) <->
  exists a, last_with teacherId i (availability request) a /\
            t = teacher a /\ n = total_sessions i (groups request) /\
            maxHours a = 0 /\ 0 < total_sessions i (groups request).
Proof.
  setoid_rewrite <- availability_map_last.
  rewrite in_validation_errors. split.
  - intros (j & Hj & Hv). unfold check_instructor in Hv.
    destruct (availability_map request !! j) as [a |] eqn:Ha.
    + destruct (rule2 a _) eqn:H2.
      * apply rule2_spec in H2.
        destruct (rule1 a _), (rule3 a _); simpl in Hv; in_cases Hv;
          injection Hv as <- <- <-; exists a; tauto.
      * destruct (rule1 a _), (rule3 a _); simpl in Hv; in_cases Hv.
    + simpl in Hv. in_cases Hv.
  - intros (a & Ha & -> & -> & Hzero & Hpos).
    assert (In i (map instructorId (groups request))) as Hi.
    { destruct (decide (In i (map instructorId (groups request)))) as [|Hn]; [done |].
      rewrite (total_sessions_absent _ _ Hn) in Hpos. lia. }
    exists i. split; [done |]. unfold check_instructor. rewrite Ha.
    assert (rule2 a (total_sessions i (groups request)) = true) as ->
      by (by apply rule2_spec).
    destruct (rule1 a _), (rule3 a _); simpl; tauto.
Qed.

(** X3. The loop appends the no-availability message for an instructor id
    exactly when the id is the [instructorId] of a group and the [teacherId]
    of no availability record. *)
Theorem X3_no_availability_iff request i :
  In (NoAvailabilityDefined i) (validation_errors request) <->
  In i (map instructorId (groups request)) /\
  ~ In i (map teacherId (availability request)).
Proof.
  rewrite in_validation_errors.
  unfold availability_map. rewrite <- (dict_of_is_Some teacherId (fun a => a)).
  split.
  - intros (j & Hj & Hv). unfold check_instructor in Hv.
    destruct (dict_of _ _ _ !! j) as [a |] eqn:Ha.
    + destruct (rule1 a _), (rule2 a _), (rule3 a _); simpl in Hv; in_cases Hv.
    + simpl in Hv. in_cases Hv. injection Hv as <-. split; [done |].
      rewrite Ha. by intros [? ?].
  - intros [Hi Hnone]. exists i. split; [done |]. unfold check_instructor.
    destruct (dict_of _ _ _ !! i) as [a |] eqn:Ha; [| by left].
    destruct Hnone. eauto.
Qed.

(** What a message in [errors] says about the record of its instructor. *)
Lemma in_errors_record request v :
  In v (validation_errors request) ->
  let i := violation_instructor v in
  let n := total_sessions i (groups request) in
  In i (map instructorId (groups request)) /\
  match v with
  | NoAvailabilityDefined _ => availability_map request !! i = None
  | InsufficientSlots _ _ _ _ =>
      exists a, availability_map request !! i = Some a /\ rule1 a n = true
  | ZeroHourBudget _ _ _ =>
      exists a, availability_map request !! i = Some a /\ rule2 a n = true
  | HourBudgetExceeded _ _ _ _ =>
      exists a, availability_map request !! i = Some a /\ rule3 a n = true
  end.
Proof.
  intros Hv. apply in_validation_errors in Hv as (j & Hj & Hv).
  unfold check_instructor in Hv.
  destruct (availability_map request !! j) as [a |] eqn:Ha.
  - destruct (rule1 a _) eqn:H1, (rule2 a _) eqn:H2, (rule3 a _) eqn:H3;
      simpl in Hv; in_cases Hv; subst v; simpl; eauto.
  - simpl in Hv. in_cases Hv. subst v. simpl. auto.
Qed.

(** X4. The zero-hours message and the hour-budget message are never both
    reported for one instructor id: the first needs max-hours 0, the second
    a positive max-hours, of the same record. *)
Theorem X4_zero_hours_excludes_budget_exceeded request i t n t' n' m :
  ~ (In (ZeroHourBudget t i n) (validation_errors request) /\
     In (HourBudgetExceeded t' i n' m) (validation_errors request)).
Proof.
  intros [Hzero Hexc].
  apply in_errors_record in Hzero as (_ & a & Ha & H2).
  apply in_errors_record in Hexc as (_ & a' & Ha' & H3). simpl in *.
  rewrite Ha in Ha'. injection Ha' as <-.
  apply rule2_spec in H2. apply rule3_spec in H3. lia.
Qed.

Lemma nil_iff_no_element {A : Type} (l : list A) : l = [] <-> forall a, ~ In a l.
Proof.
  split; [intros -> a [] |]. destruct l as [|a l]; [done |].
  intros Hno. destruct (Hno a). by left.
Qed.

(** X5. The validation loop reports nothing exactly when, for every
    [instructorId] of a group, the request has an availability record with
    that [teacherId] and the last such record lists at least as many slots as
    the raw total of the id's sessions and has a max-hours that, when it is
    not negative, is at least that total.  A negative max-hours passes the
    loop. *)
Theorem X5_validation_passes_iff request :
  validation_errors request = [] <->
  forall i, In i (map instructorId (groups request)) ->
    exists a, last_with teacherId i (availability request) a /\
              total_sessions i (groups request) <= Z.of_nat (length (slots a)) /\
              (0 <= maxHours a -> total_sessions i (groups request) <= maxHours a).
Proof.
  setoid_rewrite <- availability_map_last.
  rewrite nil_iff_no_element. split.
  - intros Hno i Hi.
    assert (check_instructor (availability_map request) []
              (i, total_sessions i (groups request)) = []) as Hnil.
    { apply nil_iff_no_element. intros v Hv. apply (Hno v).
      apply in_validation_errors. eauto. }
    unfold check_instructor in Hnil.
    destruct (availability_map request !! i) as [a |]; [| discriminate].
    exists a. split; [done |].
    destruct (rule1 a _) eqn:H1, (rule2 a _) eqn:H2, (rule3 a _) eqn:H3;
      try discriminate.
    apply not_true_iff_false in H1, H2, H3.
    rewrite rule1_spec in H1. rewrite rule2_spec in H2. rewrite rule3_spec in H3. lia.
  - intros Hok v Hv. apply in_errors_record in Hv as [Hi Hv].
    destruct (Hok _ Hi) as (a & Ha & Hslots & Hhours).
    destruct v; simpl in *.
    + congruence.
    + destruct Hv as (a' & Ha' & H1). rewrite Ha in Ha'. injection Ha' as <-.
      apply rule1_spec in H1. lia.
    + destruct Hv as (a' & Ha' & H2). rewrite Ha in Ha'. injection Ha' as <-.
      apply rule2_spec in H2. lia.
    + destruct Hv as (a' & Ha' & H3). rewrite Ha in Ha'. injection Ha' as <-.
      apply rule3_spec in H3. lia.
Qed.

(** ** The other constraint families of the timetable model *)

Lemma In_instructor_overlap gs ts x m inst d t :
  In inst (map instructor gs) -> In (d, t) ts ->
  In (instructor_overlap_ct gs x inst d t)
     (constraints (add_instructor_overlap gs ts x m)).
Proof.
  intros Hinst Hdt. unfold add_instructor_overlap.
  apply In_fold with (a := inst); [auto 6 with model | |].
  - apply list_elem_of_In, elem_of_elements, elem_of_list_to_set. by apply list_elem_of_In.
  - intros m'. apply In_fold with (a := (d, t)); auto with model.
Qed.

Lemma In_course_overlap gs ts x m cid d t :
  In cid (map courseId gs) -> In (d, t) ts ->
  In (course_overlap_ct gs x cid d t) (constraints (add_course_overlap gs ts x m)).
Proof.
  intros Hcid Hdt. unfold add_course_overlap.
  apply In_fold with (a := cid); [auto 6 with model | |].
  - apply list_elem_of_In, elem_of_elements, elem_of_list_to_set. by apply list_elem_of_In.
  - intros m'. apply In_fold with (a := (d, t)); auto with model.
Qed.

Lemma In_slot_capacity gs ts x m k d t :
  In (d, t) ts ->
  In (slot_capacity_ct gs x k d t) (constraints (add_slot_capacity gs ts x k m)).
Proof.
  intros Hdt. unfold add_slot_capacity.
  apply In_fold with (a := (d, t)); auto with model.
Qed.

Lemma In_unavailable gs ts x adict m g s_idx d t :
  In g gs -> In s_idx (range (sessions g)) -> In (d, t) ts ->
  ~ In (d, t) (default [] (adict !! instructor g)) ->
  In (unavailable_ct x g s_idx d t) (constraints (add_availability gs ts x adict m)).
Proof.
  intros Hg Hs Hdt Hout. unfold add_availability.
  apply In_fold with (a := g); [auto 10 with model | done |]. intros m1.
  apply In_fold with (a := s_idx); [auto 10 with model | done |]. intros m2.
  apply In_fold with (a := (d, t)); [| done |].
  - intros m3 [d' t']. auto with model.
  - intros m3. rewrite decide_False; [apply In_Add |].
    rewrite elem_of_list_to_set, list_elem_of_In. done.
Qed.

(** The constraints of families 2 to 5 are in the model handed to the
    solver. *)
Lemma build_model_constraints request :
  let gs := groups request in
  let ts := time_slots request in
  let m := fst (build_model request) in
  let x := snd (build_model request) in
  (forall inst d t, In inst (map instructor gs) -> In (d, t) ts ->
     In (instructor_overlap_ct gs x inst d t) (constraints m)) /\
  (forall g s_idx d t,
     In g gs -> In s_idx (range (sessions g)) -> In (d, t) ts ->
     ~ In (d, t) (default [] (availability_dict request !! instructor g)) ->
     In (unavailable_ct x g s_idx d t) (constraints m)) /\
  (forall cid d t, In cid (map courseId gs) -> In (d, t) ts ->
     In (course_overlap_ct gs x cid d t) (constraints m)) /\
  (forall d t, In (d, t) ts ->
     In (slot_capacity_ct gs x (max_courses_per_slot request) d t) (constraints m)).
Proof.
  intros gs ts m x. subst m x. unfold build_model.
  fold gs ts. destruct (declare_vars gs ts (new_model, ∅)) as [m0 x]. simpl.
  set (m1 := add_exactly_once gs ts x m0).
  set (m2 := add_instructor_overlap gs ts x m1).
  set (m3 := add_availability gs ts x (availability_dict request) m2).
  set (m4 := add_course_overlap gs ts x m3).
  set (m5 := add_slot_capacity gs ts x (max_courses_per_slot request) m4).
  set (m6 := add_max_hours gs ts x (max_hours_dict request) m5).
  assert (extends m5 m6) as H56 by apply add_max_hours_extends.
  assert (extends m4 m6) as H46
    by (eapply extends_trans; [apply add_slot_capacity_extends | exact H56]).
  assert (extends m3 m6) as H36
    by (eapply extends_trans; [apply add_course_overlap_extends | exact H46]).
  assert (extends m2 m6) as H26
    by (eapply extends_trans; [apply add_availability_extends | exact H36]).
  split; [| split; [| split]].
  - intros inst d t Hinst Hdt.
    apply (extends_In _ _ _ H26). by apply In_instructor_overlap.
  - intros g s_idx d t Hg Hs Hdt Hout.
    apply (extends_In _ _ _ H36). by apply In_unavailable.
  - intros cid d t Hcid Hdt.
    apply (extends_In _ _ _ H46). by apply In_course_overlap.
  - intros d t Hdt. apply (extends_In _ _ _ H56). by apply In_slot_capacity.
Qed.

(** ** Counting the entries of a slot *)

Lemma matching_app (R : pydict -> Prop) `{forall e, Decision (R e)} l1 l2 :
  matching R (l1 ++ l2) = matching R l1 + matching R l2.
Proof. unfold matching. rewrite filter_app, length_app. lia. Qed.

Lemma two_matching {A : Type} (R : A -> Prop) `{forall a, Decision (R a)}
    (l : list A) i j a b :
  i <> j -> l !! i = Some a -> l !! j = Some b -> R a -> R b ->
  (2 <= length (filter R l))%nat.
Proof.
  assert (forall (l : list A) k c, l !! k = Some c -> R c ->
                                   (1 <= length (filter R l))%nat) as Hone.
  { intros l' k c Hk Hc.
    assert (c ∈ filter R l') as Hin
      by (apply list_elem_of_filter; split; [done | by eapply list_elem_of_lookup_2]).
    destruct (filter R l'); [by apply elem_of_nil in Hin | simpl; lia]. }
  revert i j. induction l as [|c l IH]; intros i j Hij Hi Hj Ha Hb; [done |].
  rewrite filter_cons. destruct i as [|i], j as [|j]; simpl in *; try done.
  - injection Hi as ->. rewrite decide_True by done. simpl.
    pose proof (Hone l j b Hj Hb). lia.
  - injection Hj as ->. rewrite decide_True by done. simpl.
    pose proof (Hone l i a Hi Ha). lia.
  - assert (2 <= length (filter R l))%nat by (apply (IH i j); auto).
    destruct (decide (R c)); simpl; lia.
Qed.

Lemma filter_all {A : Type} (l : list A) : filter (fun _ => True) l = l.
Proof. induction l as [|a l IH]; [done |]. rewrite filter_cons. simpl. by rewrite IH. Qed.

Section SlotCount.
Variable request : ScheduleRequest.
Variable sol : assignment.
Hypothesis Hsat : satisfies sol (fst (build_model request)).

(** [P] selects entries, [Q] the groups whose entries [P] selects. *)
Variable P : pydict -> Prop.
Context `{forall e, Decision (P e)}.
Variable Q : Group -> Prop.
Context `{forall g, Decision (Q g)}.
Hypothesis HPQ : forall g s_idx d t, P (schedule_entry request g s_idx d t) <-> Q g.

Variables d t : string.
Hypothesis Hdt : In (d, t) (time_slots request).

Let x := snd (build_model request).
Let R := fun e => P e /\ entry_at d t e.

Lemma session_count g s_idx :
  In g (groups request) -> In s_idx (range (sessions g)) ->
  matching R (session_entries request x sol g s_idx) <=
  if decide (Q g) then sol (xvar x g s_idx d t) else 0.
Proof.
  intros Hg Hs.
  destruct (session_scheduled_once request sol g s_idx Hsat Hg Hs)
    as (d' & t' & Hdt' & H1 & Hentries).
  pose proof (xvar_binary request sol g s_idx d t Hsat Hg Hs Hdt) as Hbin.
  fold x in H1, Hentries, Hbin. rewrite Hentries.
  unfold matching. rewrite filter_cons, filter_nil.
  destruct (decide (R (schedule_entry request g s_idx d' t'))) as [[HP Hat] | Hno].
  - apply HPQ in HP. destruct Hat as [[= ->] [= ->]].
    rewrite decide_True by done. rewrite H1. simpl. lia.
  - simpl. destruct (decide (Q g)); [| lia]. lia.
Qed.

Lemma group_count g (l : list nat) :
  In g (groups request) -> (forall s_idx, In s_idx l -> In s_idx (range (sessions g))) ->
  matching R (flat_map (session_entries request x sol g) l) <=
  if decide (Q g) then eval sol (map (fun s_idx => (1, xvar x g s_idx d t)) l) else 0.
Proof.
  intros Hg. induction l as [|s_idx l IH]; intros Hsub; simpl.
  - unfold matching. rewrite filter_nil. simpl. destruct (decide (Q g)); lia.
  - rewrite matching_app.
    pose proof (session_count g s_idx Hg (Hsub _ (or_introl eq_refl))) as Hs.
    assert (forall s, In s l -> In s (range (sessions g))) as Hsub'
      by (intros s Hin; apply Hsub; by right).
    specialize (IH Hsub'). destruct (decide (Q g)); lia.
Qed.

Lemma groups_count (l : list Group) :
  (forall g, In g l -> In g (groups request)) ->
  matching R (flat_map (fun g => flat_map (session_entries request x sol g)
                                          (range (sessions g))) l) <=
  eval sol (at_slot x (filter Q l) d t).
Proof.
  induction l as [|g l IH]; intros Hsub; simpl.
  - unfold matching. rewrite filter_nil. simpl. lia.
  - rewrite matching_app, filter_cons.
    pose proof (group_count g (range (sessions g)) (Hsub _ (or_introl eq_refl))
                            (fun _ Hin => Hin)) as Hg.
    assert (forall g', In g' l -> In g' (groups request)) as Hsub'
      by (intros g' Hin; apply Hsub; by right).
    specialize (IH Hsub'). destruct (decide (Q g)); [| lia].
    unfold at_slot in *. simpl. rewrite eval_app. lia.
Qed.

(** The entries selected by [P] at the slot are at most the sum of the
    variables at the slot of the groups selected by [Q]. *)
Lemma schedule_count :
  matching R (collect_schedule request x sol) <=
  eval sol (at_slot x (filter Q (groups request)) d t).
Proof. unfold collect_schedule. by apply groups_count. Qed.
End SlotCount.

(** ** Hours asked for and variables declared *)

Lemma eval_scale {A : Type} sol (c : Z) (f : A -> var) (l : list A) :
  eval sol (map (fun a => (c, f a)) l) = c * eval sol (map (fun a => (1, f a)) l).
Proof. induction l as [|a l IH]; simpl; [lia |]. rewrite IH. lia. Qed.

Lemma demand_of_group request sol g (l : list nat) :
  satisfies sol (fst (build_model request)) ->
  In g (groups request) ->
  (forall s_idx, In s_idx l -> In s_idx (range (sessions g))) ->
  eval sol (flat_map (fun s_idx =>
              map (fun slot => (hour_cost g,
                                xvar (snd (build_model request)) g s_idx slot.1 slot.2))
                  (time_slots request)) l) =
  hour_cost g * Z.of_nat (length l).
Proof.
  intros Hsat Hg. induction l as [|s_idx l IH]; intros Hsub; simpl; [lia |].
  rewrite eval_app, IH by (intros s Hs; apply Hsub; by right).
  rewrite (eval_scale sol (hour_cost g)
             (fun slot => xvar (snd (build_model request)) g s_idx slot.1 slot.2)).
  destruct (build_model_facts request) as (_ & _ & Hct & _).
  specialize (Hct g s_idx Hg (Hsub _ (or_introl eq_refl))).
  destruct Hsat as [_ Hall]. rewrite List.Forall_forall in Hall.
  apply Hall in Hct. unfold holds in Hct. simpl in Hct. rewrite Hct. lia.
Qed.

Lemma demand_of_groups request sol inst (l : list Group) :
  satisfies sol (fst (build_model request)) ->
  (forall g, In g l -> In g (groups request)) ->
  eval sol (hours_of l (time_slots request) (snd (build_model request)) inst) =
  weighted_demand inst l.
Proof.
  intros Hsat. unfold hours_of. induction l as [|g l IH]; intros Hsub; [done |].
  rewrite filter_cons. cbn [weighted_demand].
  assert (forall g', In g' l -> In g' (groups request)) as Hsub'
    by (intros g' Hin; apply Hsub; by right).
  destruct (decide (instructor g = inst)); [| rewrite IH by done; lia].
  cbn [flat_map]. rewrite eval_app, IH by done.
  rewrite (demand_of_group request sol g _ Hsat (Hsub _ (or_introl eq_refl)))
    by done.
  unfold range. rewrite length_seq. lia.
Qed.

Lemma length_flat_map_sum {A B : Type} (f : A -> list B) (l : list A) :
  length (flat_map f l) = list_sum (map (fun a => length (f a)) l).
Proof. induction l as [|a l IH]; simpl; [done |]. by rewrite length_app, IH. Qed.

(** X13. The model of a request has one Boolean variable per group, session
    index, day and time interval: as many as the sessions of all groups (a
    group with negative [sessions] counting for none) times the days times
    the time intervals. *)
Theorem X13_one_variable_per_session_and_slot request :
  num_vars (fst (build_model request)) =
  (list_sum (map (fun g => Z.to_nat (sessions g)) (groups request))
   * (length (days request) * length (time_intervals request)))%nat.
Proof.
  destruct (build_model_facts request) as (_ & -> & _).
  rewrite declare_all_num_vars. simpl.
  assert (length (time_slots request) =
          (length (days request) * length (time_intervals request))%nat) as Hts.
  { unfold time_slots. rewrite length_flat_map_sum.
    induction (days request) as [|dy dys IH]; simpl; [done |].
    by rewrite length_map, IH. }
  unfold session_keys. rewrite length_flat_map_sum, <- Hts.
  induction (groups request) as [|g gs IH]; simpl; [done |].
  rewrite IH, length_flat_map_sum. unfold range.
  assert (forall l : list nat,
            list_sum (map (fun s_idx : nat =>
              length (map (fun slot : slot_key => (id g, s_idx, slot.1, slot.2))
                          (time_slots request))) l) =
            (length l * length (time_slots request))%nat) as Hsum.
  { induction l as [|s l IHl]; simpl; [done |]. by rewrite length_map, IHl. }
  rewrite Hsum, length_seq. lia.
Qed.

(** ** What a returned schedule never does *)

(** X7. Every entry of a returned schedule, whatever the solver, echoes one
    group of the request: it is the entry the handler builds from that group,
    with a session number between 1 and the group's [sessions], a day id of
    the request's [days] and a time id of its [time_intervals]. *)
Theorem X7_entries_come_from_the_request Solve request schedule e :
  create_schedule Solve request = Return schedule ->
  In e schedule ->
  exists g s_idx d t,
    In g (groups request) /\
    1 <= Z.of_nat s_idx + 1 <= sessions g /\
    In d (map day_Id (days request)) /\
    In t (map time_Id (time_intervals request)) /\
    e = schedule_entry request g s_idx d t.
Proof.
  intros Hret He. apply create_schedule_Return in Hret as (_ & _ & sol & _ & ->).
  apply in_collect_schedule in He as (g & s_idx & d & t & Hg & Hs & Hdt & _ & ->).
  apply in_range in Hs. apply in_time_slots in Hdt as [Hd Ht].
  exists g, s_idx, d, t. repeat split; try done; lia.
Qed.

Section Timetable2.
Variable Solve : CpModel -> option assignment.
Hypothesis Solve_sound : sound Solve.

Variable request : ScheduleRequest.
Variable schedule : list pydict.
Hypothesis Hreturn : create_schedule Solve request = Return schedule.

Lemma lookup_entry i e :
  schedule !! i = Some e ->
  exists sol g s_idx d t,
    satisfies sol (fst (build_model request)) /\
    schedule = collect_schedule request (snd (build_model request)) sol /\
    In g (groups request) /\ In s_idx (range (sessions g)) /\
    In (d, t) (time_slots request) /\
    sol (xvar (snd (build_model request)) g s_idx d t) = 1 /\
    e = schedule_entry request g s_idx d t.
Proof.
  intros Hi. destruct (returned_solution Solve Solve_sound request schedule Hreturn)
    as (sol & Hsat & Hschedule).
  apply list_elem_of_lookup_2, list_elem_of_In in Hi. rewrite Hschedule in Hi.
  apply in_collect_schedule in Hi as (g & s_idx & d & t & Hg & Hs & Hdt & H1 & ->).
  exists sol, g, s_idx, d, t. auto 10.
Qed.

(** X8. In a schedule returned with a solver whose answers satisfy the
    model, two entries at different positions with the same [Instructor] are
    never on the same day at the same time. *)
Theorem X8_instructor_never_double_booked i j e1 e2 :
  i <> j -> schedule !! i = Some e1 -> schedule !! j = Some e2 ->
  dict_get "Instructor" e1 = dict_get "Instructor" e2 ->
  ~ (dict_get "DayId" e1 = dict_get "DayId" e2 /\
     dict_get "TimeId" e1 = dict_get "TimeId" e2).
Proof.
  intros Hij H1 H2 Hinst [Hday Htime].
  destruct (lookup_entry i e1 H1)
    as (sol & g & s_idx & d & t & Hsat & Hschedule & Hg & Hs & Hdt & _ & ->).
  set (P := fun e : pydict => dict_get "Instructor" e = Some (VStr (instructor g))).
  pose proof (schedule_count request sol Hsat P (fun g' => instructor g' = instructor g))
    as Hcount.
  specialize (Hcount (fun g' _ _ _ =>
    conj (fun HP => f_equal (fun o => match o with Some (VStr s) => s | _ => "" end) HP)
         (fun HQ => f_equal (fun s => Some (VStr s)) HQ)) d t Hdt).
  rewrite <- Hschedule in Hcount.
  assert (2 <= matching (fun e => P e /\ entry_at d t e) schedule) as Htwo.
  { unfold matching.
    pose proof (two_matching (fun e => P e /\ entry_at d t e) schedule i j _ _
                             Hij H1 H2) as Htwo.
    assert (2 <= length (filter (fun e => P e /\ entry_at d t e) schedule))%nat; [| lia].
    apply Htwo; split; unfold P, entry_at; rewrite <- ?Hinst, <- ?Hday, <- ?Htime; done. }
  destruct (build_model_constraints request) as (Hct & _).
  specialize (Hct (instructor g) d t (in_map instructor _ _ Hg) Hdt).
  destruct Hsat as [_ Hall]. rewrite List.Forall_forall in Hall.
  apply Hall in Hct. unfold holds in Hct. simpl in Hct. lia.
Qed.

(** X9. In a schedule returned with a solver whose answers satisfy the
    model, two entries at different positions with the same [CourseId] are
    never on the same day at the same time. *)
Theorem X9_course_never_double_booked i j e1 e2 :
  i <> j -> schedule !! i = Some e1 -> schedule !! j = Some e2 ->
  dict_get "CourseId" e1 = dict_get "CourseId" e2 ->
  ~ (dict_get "DayId" e1 = dict_get "DayId" e2 /\
     dict_get "TimeId" e1 = dict_get "TimeId" e2).
Proof.
  intros Hij H1 H2 Hcourse [Hday Htime].
  destruct (lookup_entry i e1 H1)
    as (sol & g & s_idx & d & t & Hsat & Hschedule & Hg & Hs & Hdt & _ & ->).
  set (P := fun e : pydict => dict_get "CourseId" e = Some (VStr (courseId g))).
  pose proof (schedule_count request sol Hsat P (fun g' => courseId g' = courseId g))
    as Hcount.
  specialize (Hcount (fun g' _ _ _ =>
    conj (fun HP => f_equal (fun o => match o with Some (VStr s) => s | _ => "" end) HP)
         (fun HQ => f_equal (fun s => Some (VStr s)) HQ)) d t Hdt).
  rewrite <- Hschedule in Hcount.
  assert (2 <= matching (fun e => P e /\ entry_at d t e) schedule) as Htwo.
  { unfold matching.
    pose proof (two_matching (fun e => P e /\ entry_at d t e) schedule i j _ _
                             Hij H1 H2) as Htwo.
    assert (2 <= length (filter (fun e => P e /\ entry_at d t e) schedule))%nat; [| lia].
    apply Htwo; split; unfold P, entry_at; rewrite <- ?Hcourse, <- ?Hday, <- ?Htime; done. }
  destruct (build_model_constraints request) as (_ & _ & Hct & _).
  specialize (Hct (courseId g) d t (in_map courseId _ _ Hg) Hdt).
  destruct Hsat as [_ Hall]. rewrite List.Forall_forall in Hall.
  apply Hall in Hct. unfold holds in Hct. simpl in Hct. lia.
Qed.

(** X10. In a schedule returned with a solver whose answers satisfy the
    model, the number of entries on a day and time of the request's calendar
    is at most [max_courses_per_slot]. *)
Theorem X10_slot_capacity_respected d t :
  In (d, t) (time_slots request) ->
  Z.of_nat (length (filter (entry_at d t) schedule)) <= max_courses_per_slot request.
Proof.
  intros Hdt.
  destruct (returned_solution Solve Solve_sound request schedule Hreturn)
    as (sol & Hsat & Hschedule).
  pose proof (schedule_count request sol Hsat (fun _ => True) (fun _ => True)
                (fun _ _ _ _ => conj (fun H => H) (fun H => H)) d t Hdt) as Hcount.
  rewrite <- Hschedule, filter_all in Hcount. unfold matching in Hcount.
  rewrite (list_filter_iff _ (entry_at d t)) in Hcount by (intros e; tauto).
  destruct (build_model_constraints request) as (_ & _ & _ & Hct).
  specialize (Hct d t Hdt).
  destruct Hsat as [_ Hall]. rewrite List.Forall_forall in Hall.
  apply Hall in Hct. unfold holds in Hct. simpl in Hct. lia.
Qed.

(** X11. In a schedule returned with a solver whose answers satisfy the
    model, every entry is on a day and time that the availability record of
    its instructor lists (the record kept for the instructor's name: the last
    one of the request with that [teacher]). *)
Theorem X11_availability_respected e :
  In e schedule ->
  exists inst d t allowed,
    dict_get "Instructor" e = Some (VStr inst) /\
    dict_get "DayId" e = Some (VStr d) /\
    dict_get "TimeId" e = Some (VStr t) /\
    availability_dict request !! inst = Some allowed /\
    In (d, t) allowed /\
    exists a s, In a (availability request) /\ teacher a = inst /\
                In s (slots a) /\ dayId s = d /\ timeId s = t.
Proof.
  intros He. apply list_elem_of_In, list_elem_of_lookup_1 in He as [i Hi].
  destruct (lookup_entry i e Hi)
    as (sol & g & s_idx & d & t & Hsat & _ & Hg & Hs & Hdt & H1 & ->).
  pose proof Hreturn as Hret. apply create_schedule_Return in Hret as (Hmissing & _).
  assert (In (instructor g) (map teacher (availability request))) as Hteacher.
  { destruct (decide (In (instructor g) (map teacher (availability request))))
      as [| Hn]; [done |].
    assert (In (instructor g) (missing_teachers request)) as Hin
      by (apply in_missing_teachers; split; [by apply in_map | done]).
    by rewrite Hmissing in Hin. }
  destruct (build_model_constraints request) as (_ & Hct & _).
  specialize (Hct g s_idx d t Hg Hs Hdt).
  destruct (availability_dict request !! instructor g) as [allowed |] eqn:Hallowed.
  2: { apply (dict_of_is_Some teacher
                (fun a => map (fun s => (dayId s, timeId s)) (slots a))) in Hteacher
         as [allowed Hsome].
       assert (availability_dict request !! instructor g = Some allowed) as Heq
         by exact Hsome.
       congruence. }
  assert (In (d, t) allowed) as Hin.
  { destruct (decide (In (d, t) allowed)) as [| Hout]; [done |].
    specialize (Hct Hout).
    destruct Hsat as [_ Hall]. rewrite List.Forall_forall in Hall.
    apply Hall in Hct. unfold holds in Hct. simpl in Hct. lia. }
  exists (instructor g), d, t, allowed. repeat (split; [done |]).
  apply dict_of_lookup_Some in Hallowed as (a & Ha & Hname & <-).
  apply in_map_iff in Hin as (s & [= <- <-] & Hs').
  exists a, s. auto.
Qed.


End Timetable2.

(** ** Bounds that ortools does not compare *)

Lemma nonempty_iff_element {A : Type} (l : list A) : l <> [] <-> exists a, In a l.
Proof.
  destruct l as [|a l]; split; try done.
  - by intros [a []].
  - intros _. exists a. by left.
Qed.

Lemma supported_bound_spec bound :
  supported_bound bound = true <-> int64_min < bound <= int64_max.
Proof. unfold supported_bound. rewrite andb_true_iff, Z.ltb_lt, Z.leb_le. done. Qed.

Lemma le_raises_spec terms bound :
  le_raises terms bound = true <-> terms <> [] /\ ~ (int64_min < bound <= int64_max).
Proof.
  unfold le_raises. destruct terms as [|term terms].
  - split; [done | by intros [[] _]].
  - rewrite negb_true_iff, <- not_true_iff_false, supported_bound_spec.
    split; [by intros ? | by intros [_ ?]].
Qed.

Lemma at_slot_nonempty x (l : list Group) d t :
  at_slot x l d t <> [] <-> exists g, In g l /\ 0 < sessions g.
Proof.
  rewrite nonempty_iff_element. unfold at_slot. split.
  - intros (term & Hterm). apply in_flat_map in Hterm as (g & Hg & Hterm).
    apply in_map_iff in Hterm as (s_idx & _ & Hs). apply in_range in Hs.
    exists g. split; [done | lia].
  - intros (g & Hg & Hs). exists (1, xvar x g 0 d t).
    apply in_flat_map. exists g. split; [done |].
    apply in_map_iff. exists 0%nat. split; [done |]. apply in_range. lia.
Qed.

Lemma hours_of_nonempty gs (ts : list slot_key) x inst :
  hours_of gs ts x inst <> [] <->
  ts <> [] /\ exists g, In g gs /\ instructor g = inst /\ 0 < sessions g.
Proof.
  rewrite !nonempty_iff_element. unfold hours_of. split.
  - intros (term & Hterm). apply in_flat_map in Hterm as (g & Hg & Hterm).
    apply list_elem_of_In, list_elem_of_filter in Hg as [Hinst Hg].
    apply list_elem_of_In in Hg.
    apply in_flat_map in Hterm as (s_idx & Hs & Hterm). apply in_range in Hs.
    apply in_map_iff in Hterm as (slot & _ & Hslot).
    split; [by exists slot |]. exists g. split; [done |]. split; [done | lia].
  - intros [(slot & Hslot) (g & Hg & Hinst & Hs)].
    exists (hour_cost g, xvar x g 0 slot.1 slot.2).
    apply in_flat_map. exists g. split.
    { apply list_elem_of_In, list_elem_of_filter. split; [done |].
      by apply list_elem_of_In. }
    apply in_flat_map. exists 0%nat. split; [apply in_range; lia |].
    apply in_map_iff. by exists slot.
Qed.

Lemma time_slots_nonempty request :
  time_slots request <> [] <-> days request <> [] /\ time_intervals request <> [].
Proof.
  rewrite !nonempty_iff_element. split.
  - intros ([d t] & Hdt). apply in_time_slots in Hdt as [Hd Ht].
    apply in_map_iff in Hd as (dy & _ & Hdy). apply in_map_iff in Ht as (ti & _ & Hti).
    eauto.
  - intros [(dy & Hdy) (ti & Hti)]. exists (day_Id dy, time_Id ti).
    apply in_time_slots. split; by apply in_map.
Qed.

(** Building the model raises exactly when the calendar has a slot, some
    group has a session, and either [max_courses_per_slot] or the max-hours
    kept for the name of the instructor of such a group is a bound that
    ortools does not compare. *)
Lemma build_raises_spec request :
  build_raises request = true <->
  time_slots request <> [] /\
  exists g, In g (groups request) /\ 0 < sessions g /\
    (~ (int64_min < max_courses_per_slot request <= int64_max) \/
     exists max_hours, max_hours_dict request !! instructor g = Some max_hours /\
                       ~ (int64_min < max_hours <= int64_max)).
Proof.
  unfold build_raises.
  destruct (declare_vars (groups request) (time_slots request) (new_model, ∅))
    as [model x].
  rewrite orb_true_iff. unfold slot_capacity_raises, max_hours_raises.
  rewrite !existsb_exists. split.
  - intros [([d t] & Hdt & Hraises) | (inst & Hinst & Hraises)].
    + apply le_raises_spec in Hraises as [Hsum Hbound]. simpl in Hsum.
      apply at_slot_nonempty in Hsum as (g & Hg & Hs).
      split; [apply nonempty_iff_element; by exists (d, t) |]. exists g. auto.
    + destruct (max_hours_dict request !! inst) as [max_hours |] eqn:Hmax; [| done].
      apply le_raises_spec in Hraises as [Hsum Hbound]. simpl in Hsum.
      apply hours_of_nonempty in Hsum as (Hts & g & Hg & <- & Hs).
      split; [done |]. exists g. split; [done |]. split; [done |]. right. eauto.
  - intros (Hts & g & Hg & Hs & [Hbound | (max_hours & Hmax & Hbound)]).
    + left. apply nonempty_iff_element in Hts as ([d t] & Hdt). exists (d, t).
      split; [done |]. apply le_raises_spec. split; [| done]. simpl.
      apply at_slot_nonempty. eauto.
    + right. exists (instructor g). split.
      * apply list_elem_of_In, elem_of_elements, elem_of_list_to_set, list_elem_of_In.
        by apply in_map.
      * rewrite Hmax. apply le_raises_spec. split; [| done]. simpl.
        apply hours_of_nonempty. split; [done |]. exists g. auto.
Qed.

Lemma build_raises_false request :
  time_slots request = [] \/
  (forall g, In g (groups request) -> sessions g <= 0) \/
  (int64_min < max_courses_per_slot request <= int64_max /\
   forall a, In a (availability request) -> int64_min < maxHours a <= int64_max) ->
  build_raises request = false.
Proof.
  intros Hsafe. apply not_true_iff_false. rewrite build_raises_spec.
  intros (Hts & g & Hg & Hs & Hbound).
  destruct Hsafe as [Hnil | [Hnone | [Hmax Hhours]]]; [done | |].
  - specialize (Hnone g Hg). lia.
  - destruct Hbound as [Hbound | (max_hours & Hlookup & Hbound)]; [done |].
    apply dict_of_lookup_Some in Hlookup as (a & Ha & _ & <-). by apply Hbound, Hhours.
Qed.

Lemma empty_calendar_unsolvable Solve request g :
  sound Solve ->
  days request = [] \/ time_intervals request = [] ->
  In g (groups request) -> 0 < sessions g ->
  Solve (fst (build_model request)) = None.
Proof.
  intros Hsound Hempty Hg Hs.
  destruct (Solve (fst (build_model request))) as [sol |] eqn:Hsol; [| done].
  apply Hsound in Hsol as [_ Hall].
  assert (time_slots request = []) as Hts.
  { unfold time_slots. destruct Hempty as [-> | ->]; [done |].
    induction (days request) as [|dy dys IH]; simpl; [done | exact IH]. }
  destruct (build_model_facts request) as (_ & _ & Hct & _).
  specialize (Hct g 0%nat Hg). rewrite in_range in Hct. specialize (Hct ltac:(lia)).
  rewrite List.Forall_forall in Hall.
  apply Hall in Hct. unfold holds in Hct. simpl in Hct. rewrite Hts in Hct.
  discriminate Hct.
Qed.

(** X14. With an empty calendar (no day or no time interval) and a group
    that has at least one session, the handler never returns a schedule,
    with a solver whose answers satisfy the model; when both validation steps
    pass, it raises the no-feasible-schedule error. *)
Theorem X14_empty_calendar_is_infeasible Solve request g :
  sound Solve ->
  days request = [] \/ time_intervals request = [] ->
  In g (groups request) -> 0 < sessions g ->
  (forall schedule, create_schedule Solve request <> Return schedule) /\
  (missing_teachers request = [] -> validation_errors request = [] ->
   create_schedule Solve request = HTTPException NoFeasibleSchedule).
Proof.
  intros Hsound Hempty Hg Hs.
  pose proof (empty_calendar_unsolvable Solve request g Hsound Hempty Hg Hs) as Hnone.
  split.
  - intros schedule Hret.
    apply create_schedule_Return in Hret as (_ & _ & sol & Hsol & _). congruence.
  - intros Hmissing Herrors. unfold create_schedule. rewrite Hmissing, Herrors.
    rewrite build_raises_false.
    + destruct (build_model request) as [model x]. simpl in *. by rewrite Hnone.
    + left. apply dec_stable. rewrite time_slots_nonempty. tauto.
Qed.

(** X15. A request with no group passes both validation steps, whatever
    its other fields: the handler then returns the empty schedule when the
    solver answers for the model (which holds only the slot-capacity
    constraints), and raises the no-feasible-schedule error when it does
    not. *)
Theorem X15_no_group_no_entry Solve request :
  groups request = [] ->
  create_schedule Solve request =
  match Solve (fst (build_model request)) with
  | Some _ => Return []
  | None => HTTPException NoFeasibleSchedule
  end.
Proof.
  intros Hgroups.
  assert (missing_teachers request = []) as Hmissing.
  { apply nil_iff_no_element. intros t Ht. apply in_missing_teachers in Ht as [Ht _].
    by rewrite Hgroups in Ht. }
  assert (validation_errors request = []) as Herrors.
  { unfold validation_errors, sessions_per_instructor. by rewrite Hgroups. }
  unfold create_schedule. rewrite Hmissing, Herrors.
  rewrite build_raises_false by (right; left; rewrite Hgroups; by intros g []).
  destruct (build_model request) as [model x]. simpl.
  destruct (Solve model); [| done].
  unfold collect_schedule. by rewrite Hgroups.
Qed.

(** ** The slots of a distribution request *)

Lemma add_to_slot_get k d g :
  assoc_get k (add_to_slot d g) =
  if decide (slot_of g = k)
  then Some (default [] (assoc_get k d) ++ [g])
  else assoc_get k d.
Proof.
  unfold add_to_slot. rewrite assoc_get_set.
  destruct (decide (k = slot_of g)) as [-> | Hne].
  - by rewrite decide_True.
  - by rewrite decide_False.
Qed.

Lemma slot_to_groups_get k gs d :
  assoc_get k (fold_left add_to_slot gs d) =
  match assoc_get k d, filter (fun g => slot_of g = k) gs with
  | None, [] => None
  | old, new => Some (default [] old ++ new)
  end.
Proof.
  revert d. induction gs as [|g gs IH]; intros d.
  - simpl. rewrite filter_nil. destruct (assoc_get k d); simpl; [| done].
    by rewrite app_nil_r.
  - cbn [fold_left]. rewrite IH, add_to_slot_get, filter_cons.
    destruct (decide (slot_of g = k)) as [Hk | Hk].
    + destruct (assoc_get k d) as [old |]; simpl; rewrite <- ?app_assoc;
        by destruct (filter _ gs).
    + done.
Qed.

(** X16. The partition by slot is exact: the list kept under a slot is the
    list of the request's groups with that [(dayId, timeId)], in the order of
    the request, and a slot is kept only when some group has it. *)
Theorem X16_groups_of_a_slot request k gs :
  In (k, gs) (slot_to_groups request) <->
  gs = filter (fun g => slot_of g = k) (scheduled_groups request) /\ gs <> [].
Proof.
  destruct (slot_to_groups_spec request) as (Hkeys & _).
  pose proof (slot_to_groups_get k (scheduled_groups request) []) as Hget.
  fold (slot_to_groups request) in Hget. simpl in Hget. split.
  - intros Hin. apply (In_assoc_get _ _ _ Hkeys) in Hin. rewrite Hin in Hget.
    destruct (filter _ (scheduled_groups request)); [done |].
    injection Hget as ->. done.
  - intros [-> Hne]. apply assoc_get_In. rewrite Hget.
    by destruct (filter _ (scheduled_groups request)).
Qed.

Lemma slot_to_groups_nonempty request k gs :
  In (k, gs) (slot_to_groups request) ->
  exists g, In g gs /\ In g (scheduled_groups request) /\ slot_of g = k.
Proof.
  intros Hin. destruct (slot_to_groups_spec request) as (Hkeys & Hmem & Hperm).
  pose proof (slot_to_groups_get k (scheduled_groups request) []) as Hget.
  fold (slot_to_groups request) in Hget. simpl in Hget.
  rewrite (In_assoc_get _ _ _ Hkeys Hin) in Hget.
  destruct gs as [|g gs]; [by destruct (filter _ (scheduled_groups request)) |].
  exists g. split; [by left |]. split; [| apply (Hmem k (g :: gs)); [done | by left]].
  apply (Permutation_in _ Hperm). apply in_flat_map. exists (k, g :: gs).
  split; [done | by left].
Qed.

(** ** Outcomes of [distribute_groups] *)

Section Distribution2.
Variable Solve : CpModel -> option assignment.
Hypothesis Solve_sound : sound Solve.

Lemma all_solved_or_not rs (items : list (slot_key * list ScheduledGroup)) :
  (forall k gs, In (k, gs) items -> is_Some (Solve (fst (room_model gs rs)))) \/
  (exists k gs, In (k, gs) items /\ Solve (fst (room_model gs rs)) = None).
Proof.
  induction items as [|[k gs] items IH].
  - left. intros k gs [].
  - destruct (Solve (fst (room_model gs rs))) as [sol |] eqn:Hsol.
    + destruct IH as [Hall | (k' & gs' & Hin & Hnone)].
      * left. intros k' gs' [[= <- <-] | Hin]; [by rewrite Hsol | by apply (Hall k')].
      * right. exists k', gs'. split; [by right | done].
    + right. exists k, gs. split; [by left | done].
Qed.

(** X17. With a solver whose answers satisfy the model they are for, the
    handler has two outcomes only: it returns a distribution, or it raises the
    no-feasible-room error for the day and time of some group of the request.
    In particular [next] never runs out of rooms. *)
Theorem X17_distribution_or_infeasible_slot request :
  (exists out, distribute_groups Solve request = Return out) \/
  (exists day time g,
     In g (scheduled_groups request) /\ slot_of g = (day, time) /\
     distribute_groups Solve request =
       HTTPException (NoFeasibleRoomAssignment day time)).
Proof.
  unfold distribute_groups.
  destruct (all_solved_or_not (rooms request) (slot_to_groups request))
    as [Hall | Hfail].
  - left. by apply distribute_slots_returns.
  - right.
    destruct (distribute_slots_fails Solve Solve_sound (rooms request)
                (slot_to_groups request) [] Hfail)
      as (solved & day & time & gs & rest & Hitems & _ & _ & Hres).
    destruct (slot_to_groups_nonempty request (day, time) gs)
      as (g & _ & Hg & Hslot).
    { rewrite Hitems. apply in_or_app. right. by left. }
    exists day, time, g. auto.
Qed.

(** In a returned distribution every group of the request was given a
    room by the assignment that solved its slot. *)
Lemma every_group_assigned request out g :
  distribute_groups Solve request = Return out ->
  In g (scheduled_groups request) ->
  exists k gs sol assigned_room,
    In (k, gs) (slot_to_groups request) /\ In g gs /\
    satisfies sol (fst (room_model gs (rooms request))) /\
    next_room (snd (room_model gs (rooms request))) sol g (rooms request)
      = Some assigned_room.
Proof.
  intros Hreturn Hg.
  apply distribute_slots_Return in Hreturn as (blocks & _ & Hblocks).
  destruct (slot_to_groups_spec request) as (_ & _ & Hperm).
  apply (Permutation_in _ (Permutation_sym Hperm)) in Hg.
  apply in_flat_map in Hg as ([k gs] & Hitem & Hg). simpl in Hg.
  apply list_elem_of_In, list_elem_of_lookup_1 in Hitem as [n Hn].
  destruct (Forall2_lookup_l _ _ _ _ _ Hblocks Hn) as (block & _ & sol & Hsol & _).
  simpl in Hsol. apply Solve_sound in Hsol.
  destruct (next_room_total gs (rooms request) sol Hsol g Hg) as [assigned_room Hnext].
  exists k, gs, sol, assigned_room. split; [| done].
  by eapply list_elem_of_In, list_elem_of_lookup_2.
Qed.

(** X18. If some group of the request fits no room (every room is too
    small or of another type), the whole request fails with the
    no-feasible-room error, with a solver whose answers satisfy the model. *)
Theorem X18_group_without_room_fails_request request g :
  In g (scheduled_groups request) ->
  (forall r, In r (rooms request) ->
             capacity r < students_count g \/ course_type r <> sg_type g) ->
  exists day time,
    distribute_groups Solve request = HTTPException (NoFeasibleRoomAssignment day time).
Proof.
  intros Hg Hnone.
  destruct (all_solved_or_not (rooms request) (slot_to_groups request))
    as [Hall | Hfail].
  - destruct (distribute_slots_returns Solve Solve_sound (rooms request)
                (slot_to_groups request) [] Hall) as [out Hout].
    destruct (every_group_assigned request out g Hout Hg)
      as (k & gs & sol & assigned_room & _ & Hin & Hsat & Hnext).
    destruct (assigned_room_compatible gs (rooms request) sol Hsat g _ Hin Hnext)
      as (r & Hr & _ & Hcompat).
    apply compatible_spec in Hcompat. destruct (Hnone r Hr); lia.
  - destruct (distribute_slots_fails Solve Solve_sound (rooms request)
                (slot_to_groups request) [] Hfail)
      as (_ & day & time & _ & _ & _ & _ & _ & Hres).
    by exists day, time.
Qed.
End Distribution2.

(** ** What a returned distribution implies about the request *)

Lemma items_ids_NoDup (items : list (slot_key * list ScheduledGroup)) :
  (forall k gs, In (k, gs) items -> NoDup (map sg_id gs)) ->
  NoDup (map fst items) ->
  (forall k gs g, In (k, gs) items -> In g gs -> slot_of g = k) ->
  NoDup (map (fun g => (slot_of g, sg_id g)) (flat_map snd items)).
Proof.
  induction items as [|[k gs] items IH]; intros Hids Hkeys Hmem; simpl;
    [apply NoDup_nil_2 |].
  cbn [map fst] in Hkeys. apply NoDup_cons in Hkeys as [Hk Hkeys].
  rewrite map_app. apply NoDup_app. split; [| split].
  - apply NoDup_map_inj.
    + intros a b Ha Hb Hab. apply (f_equal snd) in Hab. simpl in Hab.
      assert (NoDup (map sg_id gs)) as Hnd by (apply (Hids k); by left).
      change (map sg_id gs) with (sg_id <$> gs) in Hnd.
      apply list_elem_of_In, list_elem_of_lookup_1 in Ha as [i Hi].
      apply list_elem_of_In, list_elem_of_lookup_1 in Hb as [j Hj].
      assert (i = j) as <-; [| congruence].
      apply (proj1 (NoDup_alt _) Hnd i j (sg_id a)); rewrite list_lookup_fmap.
      * by rewrite Hi.
      * rewrite Hj. simpl. by rewrite Hab.
    + assert (NoDup (map sg_id gs)) as Hnd by (apply (Hids k); by left).
      change (map sg_id gs) with (sg_id <$> gs) in Hnd. by apply NoDup_fmap_1 in Hnd.
  - intros key Hin Hin'. apply list_elem_of_In, in_map_iff in Hin as (g & <- & Hg).
    apply list_elem_of_In, in_map_iff in Hin' as (g' & Hslot & Hg').
    apply (f_equal fst) in Hslot. simpl in Hslot.
    apply in_flat_map in Hg' as ([k' gs'] & Hitem & Hg'). simpl in Hg'.
    rewrite (Hmem k gs g (or_introl eq_refl) Hg) in Hslot.
    rewrite (Hmem k' gs' g' (or_intror Hitem) Hg') in Hslot. subst k'.
    apply Hk. apply list_elem_of_In, in_map_iff. by exists (k, gs').
  - apply IH; [| done |].
    + intros k' gs' Hin. apply (Hids k'). by right.
    + intros k' gs' g Hin. apply Hmem. by right.
Qed.

Lemma NoDup_constant_fst {A B : Type} (c : A) (l : list (A * B)) :
  NoDup l -> (forall p, In p l -> fst p = c) -> NoDup (map snd l).
Proof.
  intros Hl Hc. apply NoDup_map_inj; [| done].
  intros [a b] [a' b'] Hp Hp' Hsnd. simpl in Hsnd.
  apply Hc in Hp, Hp'. simpl in *. congruence.
Qed.

Section Distribution3.
Variable Solve : CpModel -> option assignment.
Hypothesis Solve_sound : sound Solve.
Variable request : DistributeGroupsRequest.
Variable out : list pydict.
Hypothesis Hreturn : distribute_groups Solve request = Return out.

Lemma solved_slot k gs :
  In (k, gs) (slot_to_groups request) ->
  exists sol block,
    satisfies sol (fst (room_model gs (rooms request))) /\
    Forall2 (assigned (snd (room_model gs (rooms request))) sol (rooms request))
            gs block.
Proof.
  intros Hitem.
  pose proof Hreturn as Hret.
  apply distribute_slots_Return in Hret as (blocks & _ & Hblocks).
  apply list_elem_of_In, list_elem_of_lookup_1 in Hitem as [n Hn].
  destruct (Forall2_lookup_l _ _ _ _ _ Hblocks Hn) as (block & _ & sol & Hsol & Hblock).
  simpl in *. exists sol, block. split; [by apply Solve_sound | done].
Qed.

(** X19. A distribution is returned, with a solver whose answers satisfy
    the model, only for a request in which no two groups share both their
    [(dayId, timeId)] and their [id]. *)
Theorem X19_distinct_ids_within_a_slot :
  NoDup (map (fun g => (slot_of g, sg_id g)) (scheduled_groups request)).
Proof.
  destruct (slot_to_groups_spec request) as (Hkeys & Hmem & Hperm).
  change (map ?f ?l) with (f <$> l). rewrite <- Hperm.
  apply items_ids_NoDup; [| done | done].
  intros k gs Hitem. destruct (solved_slot k gs Hitem) as (sol & _ & Hsat & _).
  by apply (slot_ids_NoDup gs (rooms request) sol Hsat []).
Qed.

(** X20. A distribution is returned, with a solver whose answers satisfy
    the model, only if no slot holds more groups than the request has
    rooms. *)
Theorem X20_no_more_groups_than_rooms k gs :
  In (k, gs) (slot_to_groups request) ->
  (length gs <= length (rooms request))%nat.
Proof.
  intros Hitem. destruct (solved_slot k gs Hitem) as (sol & block & Hsat & Hblock).
  destruct (slot_to_groups_spec request) as (_ & Hmem & _).
  pose proof (block_bookings_NoDup gs (rooms request) sol Hsat [] gs block
                                   eq_refl Hblock) as Hnd.
  assert (NoDup (map snd (map booking block))) as Hrooms.
  { apply (NoDup_constant_fst (Some k)); [done |].
    intros p Hp. apply in_map_iff in Hp as (e & <- & He).
    destruct (Forall2_In_r _ _ _ _ Hblock He) as (g & Hg & R & _ & ->).
    simpl. f_equal. by apply (Hmem k gs). }
  rewrite (Forall2_length _ _ _ Hblock), <- (length_map booking),
    <- (length_map snd (map booking block)),
    <- (length_map (fun r => Some (VStr (room_id r))) (rooms request)).
  apply NoDup_incl_length; [by apply NoDup_ListNoDup |].
  intros o Ho. apply in_map_iff in Ho as (p & <- & Hp).
  apply in_map_iff in Hp as (e & <- & He).
  destruct (Forall2_In_r _ _ _ _ Hblock He) as (g & Hg & R & Hnext & ->).
  apply next_room_Some in Hnext as (r & v & Hr & <- & _).
  apply in_map_iff. by exists r.
Qed.
End Distribution3.

(** X21. Whatever the solver, a returned distribution has exactly one
    entry per group of the request. *)
Theorem X21_one_entry_per_group Solve request out :
  distribute_groups Solve request = Return out ->
  length out = length (scheduled_groups request).
Proof.
  intros Hreturn.
  apply distribute_slots_Return in Hreturn as (blocks & -> & Hblocks). simpl.
  destruct (slot_to_groups_spec request) as (_ & _ & Hperm).
  rewrite <- (Permutation_length Hperm). symmetry.
  apply (Forall2_length (fun _ _ => True)). apply Forall2_flat.
  eapply Forall2_impl; [exact Hblocks |].
  intros item block (sol & _ & Hblock). eapply Forall2_impl; [exact Hblock | done].
Qed.

(** ** Hours that do not fit *)

(** X22. If the hours the groups of an instructor name ask for (2 per
    session of a THEORY group, 1 per other session) exceed the max-hours of the
    last availability record with that teacher name, the handler never returns
    a schedule, with a solver whose answers satisfy the model.  When both
    validation steps pass, which compare the unweighted number of sessions
    only, and [max_courses_per_slot] and every record's max-hours are bounds
    that ortools compares (int64 values above [-2**63]), it raises the
    no-feasible-schedule error. *)
Theorem X22_hours_over_budget_is_infeasible Solve request inst a :
  sound Solve ->
  In inst (map instructor (groups request)) ->
  last_with teacher inst (availability request) a ->
  maxHours a < weighted_demand inst (groups request) ->
  (forall schedule, create_schedule Solve request <> Return schedule) /\
  (missing_teachers request = [] -> validation_errors request = [] ->
   int64_min < max_courses_per_slot request <= int64_max ->
   (forall b, In b (availability request) -> int64_min < maxHours b <= int64_max) ->
   create_schedule Solve request = HTTPException NoFeasibleSchedule).
Proof.
  intros Hsound Hinst Hlast Hover.
  assert (max_hours_dict request !! inst = Some (maxHours a)) as Hmax.
  { apply dict_of_lookup_last. by exists a. }
  assert (Solve (fst (build_model request)) = None) as Hnone.
  { destruct (Solve (fst (build_model request))) as [sol |] eqn:Hsol; [| done].
    apply Hsound in Hsol.
    pose proof (demand_of_groups request sol inst (groups request) Hsol
                                 (fun _ Hin => Hin)) as Hdemand.
    destruct (build_model_facts request) as (_ & _ & _ & Hct).
    specialize (Hct inst (maxHours a) Hinst Hmax).
    destruct Hsol as [_ Hall]. rewrite List.Forall_forall in Hall.
    apply Hall in Hct. unfold holds in Hct. simpl in Hct. lia. }
  split.
  - intros schedule Hret.
    apply create_schedule_Return in Hret as (_ & _ & sol & Hsol & _). congruence.
  - intros Hmissing Herrors Hcourses Hhours. unfold create_schedule.
    rewrite Hmissing, Herrors, build_raises_false by auto.
    destruct (build_model request) as [model x]. simpl in *. by rewrite Hnone.
Qed.


(** ** The further properties on concrete requests *)

Lemma X7_witness :
  exists g s_idx d t,
    In g (groups Examples.req_two_sessions) /\
    1 <= Z.of_nat s_idx + 1 <= sessions g /\
    In d (map day_Id (days Examples.req_two_sessions)) /\
    In t (map time_Id (time_intervals Examples.req_two_sessions)) /\
    schedule_entry Examples.req_two_sessions (Examples.algebra 2) 0 "d1" "t2" =
      schedule_entry Examples.req_two_sessions g s_idx d t.
Proof.
  apply (X7_entries_come_from_the_request brute_force Examples.req_two_sessions
           Examples.schedule_two_sessions).
  - vm_compute. reflexivity.
  - left. vm_compute. reflexivity.
Defined.

Lemma X8_witness :
  ~ (dict_get "DayId"
       (schedule_entry Examples.req_two_sessions (Examples.algebra 2) 0 "d1" "t2") =
     dict_get "DayId"
       (schedule_entry Examples.req_two_sessions (Examples.algebra 2) 1 "d1" "t1") /\
     dict_get "TimeId"
       (schedule_entry Examples.req_two_sessions (Examples.algebra 2) 0 "d1" "t2") =
     dict_get "TimeId"
       (schedule_entry Examples.req_two_sessions (Examples.algebra 2) 1 "d1" "t1")).
Proof.
  apply (X8_instructor_never_double_booked brute_force brute_force_sound
           Examples.req_two_sessions Examples.schedule_two_sessions) with 0%nat 1%nat.
  - vm_compute. reflexivity.
  - lia.
  - vm_compute. reflexivity.
  - vm_compute. reflexivity.
  - reflexivity.
Defined.

Lemma X9_witness :
  ~ (dict_get "DayId"
       (schedule_entry Examples.req_two_sessions (Examples.algebra 2) 0 "d1" "t2") =
     dict_get "DayId"
       (schedule_entry Examples.req_two_sessions (Examples.algebra 2) 1 "d1" "t1") /\
     dict_get "TimeId"
       (schedule_entry Examples.req_two_sessions (Examples.algebra 2) 0 "d1" "t2") =
     dict_get "TimeId"
       (schedule_entry Examples.req_two_sessions (Examples.algebra 2) 1 "d1" "t1")).
Proof.
  apply (X9_course_never_double_booked brute_force brute_force_sound
           Examples.req_two_sessions Examples.schedule_two_sessions) with 0%nat 1%nat.
  - vm_compute. reflexivity.
  - lia.
  - vm_compute. reflexivity.
  - vm_compute. reflexivity.
  - reflexivity.
Defined.

Lemma X10_witness :
  Z.of_nat (length (filter (entry_at "d1" "t1") Examples.schedule_two_sessions))
  <= max_courses_per_slot Examples.req_two_sessions.
Proof.
  apply (X10_slot_capacity_respected brute_force brute_force_sound
           Examples.req_two_sessions Examples.schedule_two_sessions).
  - vm_compute. reflexivity.
  - left. reflexivity.
Defined.

Lemma X11_witness :
  exists inst d t allowed,
    dict_get "Instructor"
      (schedule_entry Examples.req_two_sessions (Examples.algebra 2) 0 "d1" "t2")
      = Some (VStr inst) /\
    dict_get "DayId"
      (schedule_entry Examples.req_two_sessions (Examples.algebra 2) 0 "d1" "t2")
      = Some (VStr d) /\
    dict_get "TimeId"
      (schedule_entry Examples.req_two_sessions (Examples.algebra 2) 0 "d1" "t2")
      = Some (VStr t) /\
    availability_dict Examples.req_two_sessions !! inst = Some allowed /\
    In (d, t) allowed /\
    exists a s, In a (availability Examples.req_two_sessions) /\ teacher a = inst /\
                In s (slots a) /\ dayId s = d /\ timeId s = t.
Proof.
  apply (X11_availability_respected brute_force brute_force_sound
           Examples.req_two_sessions Examples.schedule_two_sessions).
  - vm_compute. reflexivity.
  - left. vm_compute. reflexivity.
Defined.


Lemma X14_witness :
  (forall schedule,
     create_schedule brute_force Examples.req_empty_calendar <> Return schedule) /\
  (missing_teachers Examples.req_empty_calendar = [] ->
   validation_errors Examples.req_empty_calendar = [] ->
   create_schedule brute_force Examples.req_empty_calendar =
     HTTPException NoFeasibleSchedule).
Proof.
  apply (X14_empty_calendar_is_infeasible brute_force Examples.req_empty_calendar
           (Examples.algebra 1) brute_force_sound).
  - by left.
  - by left.
  - reflexivity.
Defined.

Lemma X15_witness :
  create_schedule brute_force Examples.req_no_groups =
  match brute_force (fst (build_model Examples.req_no_groups)) with
  | Some _ => Return []
  | None => HTTPException NoFeasibleSchedule
  end.
Proof. apply X15_no_group_no_entry. reflexivity. Defined.

Lemma X17_witness :
  (exists out, distribute_groups brute_force Examples.req_no_room = Return out) \/
  (exists day time g,
     In g (scheduled_groups Examples.req_no_room) /\ slot_of g = (day, time) /\
     distribute_groups brute_force Examples.req_no_room =
       HTTPException (NoFeasibleRoomAssignment day time)).
Proof. apply (X17_distribution_or_infeasible_slot brute_force brute_force_sound). Defined.

Lemma X18_witness :
  exists day time,
    distribute_groups brute_force Examples.req_no_room =
      HTTPException (NoFeasibleRoomAssignment day time).
Proof.
  apply (X18_group_without_room_fails_request brute_force brute_force_sound
           Examples.req_no_room Examples.analysis_monday_late).
  - right. by left.
  - intros r [<- | [<- | []]]; left; reflexivity.
Defined.

Lemma X19_witness :
  NoDup (map (fun g => (slot_of g, sg_id g)) (scheduled_groups Examples.req_two_groups)).
Proof.
  apply (X19_distinct_ids_within_a_slot brute_force brute_force_sound
           Examples.req_two_groups Examples.distribution_two_groups).
  vm_compute. reflexivity.
Defined.

Lemma X20_witness :
  (length [Examples.algebra_monday; Examples.logic_monday]
   <= length (rooms Examples.req_two_groups))%nat.
Proof.
  apply (X20_no_more_groups_than_rooms brute_force brute_force_sound
           Examples.req_two_groups Examples.distribution_two_groups) with ("d1", "t1").
  - vm_compute. reflexivity.
  - left. vm_compute. reflexivity.
Defined.

Lemma X21_witness :
  length Examples.distribution_two_groups =
  length (scheduled_groups Examples.req_two_groups).
Proof.
  apply (X21_one_entry_per_group brute_force). vm_compute. reflexivity.
Defined.

Lemma X22_witness :
  (forall schedule,
     create_schedule brute_force Examples.req_three_hours <> Return schedule) /\
  create_schedule brute_force Examples.req_three_hours =
    HTTPException NoFeasibleSchedule.
Proof.
  destruct (X22_hours_over_budget_is_infeasible brute_force Examples.req_three_hours
              "Bob" {| teacher := "Bob"; teacherId := "i1";
                       slots := Examples.all_four_slots; maxHours := 3 |}
              brute_force_sound) as [Hnever Herror].
  - by left.
  - exists [], []. split; [reflexivity |]. split; [reflexivity |]. by intros b [].
  - reflexivity.
  - split; [exact Hnever |]. apply Herror.
    + reflexivity.
    + reflexivity.
    + unfold int64_min, int64_max. simpl. lia.
    + intros b [<- | []]. unfold int64_min, int64_max. simpl. lia.
Defined.

(** The hours of "Bob" are compared with [-2**63]: the request passes both
    validation steps and ends with the exception of that comparison. *)
Example least_int64_raises :
  missing_teachers Examples.req_least_int64 = [] /\
  validation_errors Examples.req_least_int64 = [] /\
  create_schedule brute_force Examples.req_least_int64 = BoundError.
Proof. vm_compute. repeat split. Qed.
